(** * grepx-mongo-libs: connection, cursor and connection pool

    A shallow embedding of [src/core/connection.py], [src/core/cursor.py]
    and [src/advanced/connection_pool.py], and the properties of the
    specification that concern them; then of the code around them (cursor
    iteration, scoped use of connections and of the pool, the query
    builder, transactions, the type registry and the application wrapper)
    with further properties read off that code.

    Python objects become records, mutation becomes explicit state passing,
    and a raised exception becomes a [Raise] outcome that leaves the state
    reached so far in place (as in Python, an exception does not roll back
    the assignments made before it).  The database driver (pymongo) is a
    black box: its answers are given by an oracle that sees the history of
    all driver interactions so far. *)

From Stdlib Require Import ZArith Ascii String List Bool Lia.
From stdpp Require Import base option list gmap strings relations.

Local Open Scope string_scope.
Local Open Scope Z_scope.
Local Open Scope list_scope.

(** ** Exceptions ([core/exceptions.py], [queue.Empty], [AttributeError]) *)

Inductive exn : Type :=
| InterfaceError (msg : string)
| OperationalError (msg : string)
| ProgrammingError (msg : string)
| Empty
| AttributeError (msg : string)
| TypeError (msg : string)
| DriverError (msg : string).

(** [str(e)] as used by the f-strings that wrap a cause. *)
Definition str (e : exn) : string :=
  match e with
  | InterfaceError m | OperationalError m | ProgrammingError m
  | AttributeError m | TypeError m | DriverError m => m
  | Empty => ""
  end.

(** Outcome of a call: a returned value or a raised exception. *)
Inductive res (A : Type) : Type :=
| Ok (a : A)
| Raise (e : exn).
Arguments Ok {A} a.
Arguments Raise {A} e.

Definition is_ok {A} (r : res A) : bool :=
  match r with Ok _ => true | Raise _ => false end.

(** ** Values exchanged with the driver *)

(** A raw driver document (a Python [dict]). *)
Definition document : Type := list (string * Z).

(** A write acknowledgement.  [hasattr] on the count attributes is modelled
    by [option]: a result object exposes only some of them. *)
Record write_result : Type := WriteResult {
  acknowledged : bool;
  inserted_count : option Z;
  modified_count : option Z;
  deleted_count : option Z
}.

(** Python values that flow through a cursor. *)
Inductive pyobj : Type :=
| PyNone
| PyInt (n : Z)
| PyDict (d : document)             (* a raw document *)
| PyDocument (data : pyobj)         (* core.document.Document wrapper *)
| PyIter (rest : list document)     (* a lazy driver sequence, elements left *)
| PyWrite (w : write_result).

(** The eleven methods of a driver collection that [Cursor.execute] calls. *)
Inductive method : Type :=
| m_find | m_find_one | m_insert_one | m_insert_many
| m_update_one | m_update_many | m_delete_one | m_delete_many
| m_replace_one | m_aggregate | m_count_documents.

(** Name of the driver method, as spelled in the source. *)
Definition method_name (m : method) : string :=
  match m with
  | m_find => "find" | m_find_one => "find_one"
  | m_insert_one => "insert_one" | m_insert_many => "insert_many"
  | m_update_one => "update_one" | m_update_many => "update_many"
  | m_delete_one => "delete_one" | m_delete_many => "delete_many"
  | m_replace_one => "replace_one" | m_aggregate => "aggregate"
  | m_count_documents => "count_documents"
  end.

(** A driver handle: the [MongoClient] object.  Handles are numbered by the
    position of their creation in the history, so every [MongoClient]
    call yields a new one. *)
Definition handle : Type := nat.

(** Construction parameters shared by [Connection] and [ConnectionPool].
    The float-valued timeouts are passed to the driver unchanged and no
    property below reads them; they are left out. *)
Record Config : Type := MkConfig {
  cfg_dsn : option string;
  cfg_host : option string;
  cfg_port : option Z;
  cfg_database : option string;
  cfg_username : option string;
  cfg_password : option string
}.

(** A database reference [client[db_name]]. *)
Record Database : Type := MkDatabase {
  db_client : handle;
  db_name : string
}.

(** A collection reference [db[name]]. *)
Record Collection : Type := MkCollection {
  coll_db : Database;
  coll_name : string
}.

(** One call of a method of a driver collection, with the cursor's
    positional and keyword arguments. *)
Record call : Type := MkCall {
  call_coll : Collection;
  call_method : method;
  call_args : list document;
  call_kwargs : list (string * document)
}.

(** The history of driver interactions. *)
Inductive event : Type :=
| EConnect (cfg : Config)          (* MongoClient called *)
| EClientClose (h : handle)        (* client.close() *)
| EPing (h : handle)               (* client.admin.command('ping') *)
| ECall (c : call).                (* a collection method called *)

Definition trace : Type := list event.

(** What can happen inside [Connection.connect]. *)
Inductive connect_outcome : Type :=
| ImportFails                      (* pymongo cannot be imported *)
| ClientFails (e : string)         (* MongoClient raises *)
| OptionsFail (e : string)         (* a with_options step raises *)
| Connected.

(** The driver oracle. *)
Record Driver : Type := MkDriver {
  drv_connect : trace -> Config -> connect_outcome;
  drv_ping : trace -> handle -> option string;   (* [Some e]: ping raises *)
  drv_call : trace -> call -> res pyobj
}.

(** Constants of [core/constants.py], which is not part of the sources at
    hand; they are parameters of the model. *)
Record Constants : Type := MkConstants {
  DEFAULT_DATABASE : string
}.

(** Python truthiness of an optional string: [None] and [""] are falsy. *)
Definition or_default (s : option string) (d : string) : string :=
  match s with
  | Some x => if String.eqb x "" then d else x
  | None => d
  end.

(** ** Connection ([core/connection.py]) *)

Module Connection.

(** A document factory maps a raw document to an application value.  The
    cursor it also receives is only stored by [Document], never read. *)
Definition DocumentFactory : Type := pyobj -> pyobj.

Record t : Type := Mk {
  _cfg : Config;
  _document_factory : option DocumentFactory;
  _client : option handle;
  _db : option Database;
  _closed : bool
}.

(** [Connection.__init__] *)
Definition init (cfg : Config) (factory : option DocumentFactory) : t :=
  {| _cfg := cfg; _document_factory := factory;
     _client := None; _db := None; _closed := false |}.

Definition set_client (c : t) (h : option handle) : t :=
  {| _cfg := _cfg c; _document_factory := _document_factory c;
     _client := h; _db := _db c; _closed := _closed c |}.

Definition set_db (c : t) (d : option Database) : t :=
  {| _cfg := _cfg c; _document_factory := _document_factory c;
     _client := _client c; _db := d; _closed := _closed c |}.

Definition set_closed (c : t) (b : bool) : t :=
  {| _cfg := _cfg c; _document_factory := _document_factory c;
     _client := _client c; _db := _db c; _closed := b |}.

Section WithDriver.
Variable K : Constants.
Variable D : Driver.

(** [Connection.connect].  Returns the outcome, the connection after the
    call and the extended history. *)
Definition connect (c : t) (tr : trace) : res unit * t * trace :=
  match _client c with
  | Some _ => (Ok tt, c, tr)
  | None =>
      match drv_connect D tr (_cfg c) with
      | ImportFails =>
          (Raise (InterfaceError
                    "pymongo is required. Install it with: pip install pymongo"),
           c, tr)
      | ClientFails e =>
          (Raise (InterfaceError ("Failed to connect to MongoDB: " ++ e)%string),
           c, tr ++ [EConnect (_cfg c)])
      | OptionsFail e =>
          let h : handle := length tr in
          let db := MkDatabase h (or_default (cfg_database (_cfg c))
                                             (DEFAULT_DATABASE K)) in
          (Raise (InterfaceError ("Failed to connect to MongoDB: " ++ e)%string),
           set_db (set_client c (Some h)) (Some db),
           tr ++ [EConnect (_cfg c)])
      | Connected =>
          let h : handle := length tr in
          let db := MkDatabase h (or_default (cfg_database (_cfg c))
                                             (DEFAULT_DATABASE K)) in
          (Ok tt,
           set_db (set_client c (Some h)) (Some db),
           tr ++ [EConnect (_cfg c)])
      end
  end.

End WithDriver.

(** [Connection.close] *)
Definition close (c : t) (tr : trace) : t * trace :=
  match _client c with
  | Some h =>
      (set_closed (set_db (set_client c None) None) true,
       tr ++ [EClientClose h])
  | None => (set_closed c true, tr)
  end.

(** [Connection.closed] *)
Definition closed (c : t) : bool := _closed c.

Definition closed_msg : exn := InterfaceError "Connection is closed".

(** [Connection.collection] *)
Definition collection (c : t) (name : string) : res Collection :=
  if _closed c then Raise closed_msg
  else match _db c with
       | None => Raise closed_msg
       | Some db => Ok (MkCollection db name)
       end.

(** [Connection.database] *)
Definition database (c : t) : res Database :=
  if _closed c then Raise closed_msg
  else match _db c with
       | None => Raise closed_msg
       | Some db => Ok db
       end.

(** [Connection.client] *)
Definition client (c : t) : res handle :=
  if _closed c then Raise closed_msg
  else match _client c with
       | None => Raise closed_msg
       | Some h => Ok h
       end.

End Connection.

(** ** Cursor ([core/cursor.py]) *)

(** [document_factory] and [dict_factory] of the document-factory module. *)
Definition document_factory : Connection.DocumentFactory := PyDocument.
Definition dict_factory : Connection.DocumentFactory := fun d => d.

(** Membership of a string in a tuple of literals ([x in ("a", "b")]). *)
Definition str_in (x : string) (l : list string) : bool :=
  existsb (String.eqb x) l.

Module Cursor.

(** The cursor's [_connection] is a reference to an object that lives
    outside the cursor: every method below receives the state that the
    referenced connection has at the time of the call.  [_description] is
    [None] throughout the source and is left out. *)
Record t : Type := Mk {
  _collection_name : string;
  _operation : string;
  _args : list document;
  _kwargs : list (string * document);
  _document_factory : Connection.DocumentFactory;
  _result : pyobj;
  _executed : bool
}.

(** [Cursor.__init__] *)
Definition init (conn : Connection.t) (collection operation : string)
    (args : list document) (kwargs : list (string * document)) : t :=
  {| _collection_name := collection;
     _operation := operation;
     _args := args;
     _kwargs := kwargs;
     _document_factory :=
       match Connection._document_factory conn with
       | Some f => f
       | None => dict_factory
       end;
     _result := PyNone;
     _executed := false |}.

Definition set_result (c : t) (r : pyobj) : t :=
  {| _collection_name := _collection_name c; _operation := _operation c;
     _args := _args c; _kwargs := _kwargs c;
     _document_factory := _document_factory c;
     _result := r; _executed := _executed c |}.

Definition set_executed (c : t) (b : bool) : t :=
  {| _collection_name := _collection_name c; _operation := _operation c;
     _args := _args c; _kwargs := _kwargs c;
     _document_factory := _document_factory c;
     _result := _result c; _executed := b |}.

(** The [if]/[elif] chain of [execute]: the driver method selected by the
    operation string, [None] for the final [else]. *)
Definition method_of (op : string) : option method :=
  if String.eqb op "find" then Some m_find
  else if String.eqb op "find_one" then Some m_find_one
  else if String.eqb op "insert_one" then Some m_insert_one
  else if String.eqb op "insert_many" then Some m_insert_many
  else if String.eqb op "update_one" then Some m_update_one
  else if String.eqb op "update_many" then Some m_update_many
  else if String.eqb op "delete_one" then Some m_delete_one
  else if String.eqb op "delete_many" then Some m_delete_many
  else if String.eqb op "replace_one" then Some m_replace_one
  else if String.eqb op "aggregate" then Some m_aggregate
  else if String.eqb op "count_documents" then Some m_count_documents
  else None.

(** The call that a cursor issues on a collection. *)
Definition call_of (c : t) (coll : Collection) (m : method) : call :=
  MkCall coll m (_args c) (_kwargs c).

Definition operation_failed (cause : string) : exn :=
  ProgrammingError ("Operation failed: " ++ cause)%string.

Definition unknown_operation (op : string) : exn :=
  ProgrammingError ("Unknown operation: " ++ op)%string.

Section WithDriver.
Variable D : Driver.

(** The body of the [try] block of [execute]: either the exception
    raised inside it, or the cursor and history after it. *)
Definition dispatch (conn : Connection.t) (c : t) (tr : trace)
  : res unit * t * trace :=
  match Connection.collection conn (_collection_name c) with
  | Raise e => (Raise e, c, tr)
  | Ok coll =>
      match method_of (_operation c) with
      | None => (Raise (unknown_operation (_operation c)), c, tr)
      | Some m =>
          let k := call_of c coll m in
          match drv_call D tr k with
          | Raise e => (Raise e, c, tr ++ [ECall k])
          | Ok r => (Ok tt, set_executed (set_result c r) true,
                     tr ++ [ECall k])
          end
      end
  end.

(** [Cursor.execute].  [Ok tt] stands for [return self]: the cursor
    returned is the one in the second component. *)
Definition execute (conn : Connection.t) (c : t) (tr : trace)
  : res unit * t * trace :=
  if _executed c then (Ok tt, c, tr)
  else if Connection.closed conn then (Raise Connection.closed_msg, c, tr)
  else
    match dispatch conn c tr with
    | (Raise e, c', tr') => (Raise (operation_failed (str e)), c', tr')
    | ok => ok
    end.

(** [next(self._result)] followed by the factory, with [StopIteration]
    turned into [None] as [fetchone] does.  A driver sequence is the
    only iterator the driver hands out. *)
Definition next_mapped (c : t) : res pyobj * t :=
  match _result c with
  | PyIter (doc :: rest) =>
      (Ok (_document_factory c (PyDict doc)), set_result c (PyIter rest))
  | PyIter [] => (Ok PyNone, c)
  | _ => (Raise (TypeError "object is not an iterator"), c)
  end.

(** [Cursor.fetchone] *)
Definition fetchone (conn : Connection.t) (c : t) (tr : trace)
  : res pyobj * t * trace :=
  let '(r, c, tr) :=
    if _executed c then (Ok tt, c, tr) else execute conn c tr in
  match r with
  | Raise e => (Raise e, c, tr)
  | Ok _ =>
      if String.eqb (_operation c) "find_one" then
        match _result c with
        | PyNone => (Ok PyNone, c, tr)
        | doc => (Ok (_document_factory c doc), c, tr)
        end
      else if String.eqb (_operation c) "find" then
        match _result c with
        | PyNone => (Ok PyNone, c, tr)
        | _ => let '(v, c) := next_mapped c in (v, c, tr)
        end
      else (Ok (_result c), c, tr)
  end.

(** [[doc] if doc is not None else []] *)
Definition singleton_unless_none (doc : pyobj) : list pyobj :=
  match doc with PyNone => [] | _ => [doc] end.

(** [Cursor.fetchmany] *)
Definition fetchmany (conn : Connection.t) (size : Z) (c : t) (tr : trace)
  : res (list pyobj) * t * trace :=
  let '(r, c, tr) :=
    if _executed c then (Ok tt, c, tr) else execute conn c tr in
  match r with
  | Raise e => (Raise e, c, tr)
  | Ok _ =>
      if String.eqb (_operation c) "find" then
        match _result c with
        | PyNone => (Ok [], c, tr)
        | PyIter l =>
            let n := Z.to_nat size in
            (Ok (map (fun d => _document_factory c (PyDict d)) (take n l)),
             set_result c (PyIter (drop n l)), tr)
        | _ =>
            if size <=? 0 then (Ok [], c, tr)
            else (Raise (TypeError "object is not an iterator"), c, tr)
        end
      else if String.eqb (_operation c) "find_one" then
        match fetchone conn c tr with
        | (Raise e, c, tr) => (Raise e, c, tr)
        | (Ok doc, c, tr) => (Ok (singleton_unless_none doc), c, tr)
        end
      else (Ok [], c, tr)
  end.

(** [Cursor.fetchall] *)
Definition fetchall (conn : Connection.t) (c : t) (tr : trace)
  : res (list pyobj) * t * trace :=
  let '(r, c, tr) :=
    if _executed c then (Ok tt, c, tr) else execute conn c tr in
  match r with
  | Raise e => (Raise e, c, tr)
  | Ok _ =>
      if String.eqb (_operation c) "find" then
        match _result c with
        | PyNone => (Ok [], c, tr)
        | PyIter l =>
            (Ok (map (fun d => _document_factory c (PyDict d)) l),
             set_result c (PyIter []), tr)
        | _ => (Raise (TypeError "object is not iterable"), c, tr)
        end
      else if String.eqb (_operation c) "find_one" then
        match fetchone conn c tr with
        | (Raise e, c, tr) => (Raise e, c, tr)
        | (Ok doc, c, tr) => (Ok (singleton_unless_none doc), c, tr)
        end
      else (Ok [], c, tr)
  end.

End WithDriver.

(** The [hasattr] chain of [rowcount] for the [*_many] kinds. *)
Definition many_count (r : pyobj) : Z :=
  match r with
  | PyWrite w =>
      match inserted_count w with
      | Some n => n
      | None =>
          match modified_count w with
          | Some n => n
          | None =>
              match deleted_count w with
              | Some n => n
              | None => 0
              end
          end
      end
  | _ => 0
  end.

(** [Cursor.rowcount] *)
Definition rowcount (c : t) : res pyobj :=
  if negb (_executed c) then Ok (PyInt (-1))
  else if str_in (_operation c)
            ["insert_one"; "update_one"; "delete_one"; "replace_one"] then
    match _result c with
    | PyWrite w => Ok (PyInt (if acknowledged w then 1 else 0))
    | _ => Raise (AttributeError "object has no attribute 'acknowledged'")
    end
  else if str_in (_operation c)
            ["insert_many"; "update_many"; "delete_many"] then
    Ok (PyInt (many_count (_result c)))
  else if String.eqb (_operation c) "count_documents" then
    Ok (_result c)
  else Ok (PyInt (-1)).

(** [Cursor.result] *)
Definition result (c : t) : pyobj := _result c.

End Cursor.

(** [Connection.execute]: builds a cursor, never talks to the driver. *)
Definition Connection_execute (conn : Connection.t) (collection operation : string)
    (args : list document) (kwargs : list (string * document)) : res Cursor.t :=
  if Connection._closed conn then Raise Connection.closed_msg
  else match Connection._db conn with
       | None => Raise Connection.closed_msg
       | Some _ => Ok (Cursor.init conn collection operation args kwargs)
       end.

(** ** ConnectionPool ([advanced/connection_pool.py]) *)

Module ConnectionPool.

(** A reference to a [Connection] object: its index in the object store.
    The pool and its callers share the objects, so closing a connection
    through one reference is seen through every other. *)
Definition ref : Type := nat.

(** The pool object together with the objects it shares with its callers
    and the driver history.  [_pool] is the [Queue], oldest element first;
    its [maxsize] is [_maxconn].  [_lock] guards the sections marked below
    and has no state of its own between them. *)
Record t : Type := Mk {
  _cfg : Config;
  _minconn : Z;
  _maxconn : Z;
  _pool : list ref;
  _created_connections : Z;
  _closed : bool;
  heap : list Connection.t;
  history : trace
}.

Definition set_pool (p : t) (q : list ref) : t :=
  {| _cfg := _cfg p; _minconn := _minconn p; _maxconn := _maxconn p;
     _pool := q; _created_connections := _created_connections p;
     _closed := _closed p; heap := heap p; history := history p |}.

Definition set_created (p : t) (n : Z) : t :=
  {| _cfg := _cfg p; _minconn := _minconn p; _maxconn := _maxconn p;
     _pool := _pool p; _created_connections := n;
     _closed := _closed p; heap := heap p; history := history p |}.

Definition set_closed (p : t) (b : bool) : t :=
  {| _cfg := _cfg p; _minconn := _minconn p; _maxconn := _maxconn p;
     _pool := _pool p; _created_connections := _created_connections p;
     _closed := b; heap := heap p; history := history p |}.

Definition set_world (p : t) (h : list Connection.t) (tr : trace) : t :=
  {| _cfg := _cfg p; _minconn := _minconn p; _maxconn := _maxconn p;
     _pool := _pool p; _created_connections := _created_connections p;
     _closed := _closed p; heap := h; history := tr |}.

(** *** The queue *)

(** [Queue.get(timeout=...)] and [Queue.get_nowait()] as seen by one
    thread with nobody else filling the queue: the oldest element, or
    [Empty] (for [get], once the timeout has passed).  The timeout is a
    non-negative real-time bound; it decides how long the call waits, not
    what it returns, and is not part of the state. *)
Definition queue_get (p : t) : res ref * t :=
  match _pool p with
  | [] => (Raise Empty, p)
  | r :: q => (Ok r, set_pool p q)
  end.

(** [Queue.full()]: a [maxsize <= 0] queue is unbounded. *)
Definition queue_full (p : t) : bool :=
  (0 <? _maxconn p) && (_maxconn p <=? Z.of_nat (length (_pool p))).

(** [Queue.put_nowait(conn)]: [false] stands for the [Full] exception. *)
Definition put_nowait (r : ref) (p : t) : bool * t :=
  if queue_full p then (false, p)
  else (true, set_pool p (_pool p ++ [r])).

(** *** The connection objects *)

(** [conn.close()] *)
Definition conn_close (r : ref) (p : t) : t :=
  match heap p !! r with
  | Some c =>
      let '(c', tr') := Connection.close c (history p) in
      set_world p (<[r := c']> (heap p)) tr'
  | None => p
  end.

(** [conn.closed] *)
Definition conn_closed (r : ref) (p : t) : bool :=
  match heap p !! r with
  | Some c => Connection.closed c
  | None => true
  end.

(** *** The counter sections under [self._lock] *)

(** [with self._lock: self._created_connections -= 1] *)
Definition decrement (p : t) : t :=
  set_created p (_created_connections p - 1).

(** [with self._lock: self._created_connections = 0] *)
Definition reset (p : t) : t := set_created p 0.

Section WithDriver.
Variable K : Constants.
Variable D : Driver.

(** [conn.client.admin.command('ping')] *)
Definition ping (r : ref) (p : t) : res unit * t :=
  match heap p !! r with
  | None => (Raise (AttributeError "no such object"), p)
  | Some c =>
      match Connection.client c with
      | Raise e => (Raise e, p)
      | Ok h =>
          let tr' := history p ++ [EPing h] in
          match drv_ping D (history p) h with
          | Some e => (Raise (DriverError e), set_world p (heap p) tr')
          | None => (Ok tt, set_world p (heap p) tr')
          end
      end
  end.

(** [ConnectionPool._create_connection] (one section under the lock) *)
Definition _create_connection (p : t) : res ref * t :=
  if _closed p then (Raise (InterfaceError "Pool is closed"), p)
  else if _maxconn p <=? _created_connections p then
    (Raise (OperationalError "Maximum number of connections reached"), p)
  else
    let r : ref := length (heap p) in
    let '(out, c, tr) :=
      Connection.connect K D (Connection.init (_cfg p) None) (history p) in
    let p := set_world p (heap p ++ [c]) tr in
    match out with
    | Raise e => (Raise e, p)
    | Ok _ => (Ok r, set_created p (_created_connections p + 1))
    end.

(** The inner [try: ping / except Exception: conn = create] of
    [getconn]. *)
Definition ping_or_replace (r : ref) (p : t) : res ref * t :=
  match ping r p with
  | (Ok _, p) => (Ok r, p)
  | (Raise _, p) => _create_connection p
  end.

(** [ConnectionPool.getconn] *)
Definition getconn (p : t) : res ref * t :=
  if _closed p then (Raise (InterfaceError "Pool is closed"), p)
  else
    match queue_get p with
    | (Ok r, p) => ping_or_replace r p
    | (Raise Empty, p) =>
        match _create_connection p with
        | (Raise (OperationalError _), p) =>
            match queue_get p with
            | (Ok r, p) => ping_or_replace r p
            | (Raise e, p) => (Raise e, p)
            end
        | other => other
        end
    | (Raise e, p) => (Raise e, p)
    end.

(** [ConnectionPool.putconn] *)
Definition putconn (r : ref) (p : t) : t :=
  if _closed p then conn_close r p
  else if conn_closed r p then decrement p
  else
    match put_nowait r p with
    | (true, p) => p
    | (false, p) => decrement (conn_close r p)
    end.

(** The [while not self._pool.empty()] loop of [closeall]: every queued
    connection is taken out and closed. *)
Fixpoint drain (n : nat) (p : t) : t :=
  match n with
  | O => p
  | S n =>
      match queue_get p with
      | (Ok r, p) => drain n (conn_close r p)
      | (Raise _, p) => p
      end
  end.

(** [ConnectionPool.closeall] *)
Definition closeall (p : t) : t :=
  let p := set_closed p true in
  let p := drain (length (_pool p)) p in
  reset p.

(** The [for _ in range(minconn)] loop of [__init__]. *)
Fixpoint create_initial (n : nat) (p : t) : res unit * t :=
  match n with
  | O => (Ok tt, p)
  | S n =>
      match _create_connection p with
      | (Ok _, p) => create_initial n p
      | (Raise e, p) => (Raise e, p)
      end
  end.

(** [ConnectionPool.__init__], run in a world that already holds the
    objects [h] and has the driver history [tr].  When the loop raises,
    no pool object is handed to the caller; the state reached is still
    returned, for the driver history. *)
Definition init (cfg : Config) (minconn maxconn : Z)
    (h : list Connection.t) (tr : trace) : res unit * t :=
  create_initial (Z.to_nat minconn)
    {| _cfg := cfg; _minconn := minconn; _maxconn := maxconn;
       _pool := []; _created_connections := 0; _closed := false;
       heap := h; history := tr |}.

End WithDriver.

End ConnectionPool.

(** ** Auxiliary definitions for the statements *)

(** The state-changing methods of a connection.  [execute], [collection],
    [database] and [client] only read the state. *)
Inductive conn_op : Type :=
| op_connect
| op_close.

Definition run_conn_op (K : Constants) (D : Driver) (o : conn_op)
    (s : Connection.t * trace) : Connection.t * trace :=
  match o with
  | op_connect =>
      let '(_, c, tr) := Connection.connect K D (fst s) (snd s) in (c, tr)
  | op_close => Connection.close (fst s) (snd s)
  end.

Definition run_conn_ops (K : Constants) (D : Driver) (ops : list conn_op)
    (s : Connection.t * trace) : Connection.t * trace :=
  fold_left (fun s o => run_conn_op K D o s) ops s.

(** Number of collection-method calls that reached the driver. *)
Fixpoint driver_calls (tr : trace) : nat :=
  match tr with
  | [] => O
  | ECall _ :: tr => S (driver_calls tr)
  | _ :: tr => driver_calls tr
  end.

(** The operation kinds that the dispatch chain of [Cursor.execute]
    accepts, read off the source. *)
Definition dispatch_kinds : list string :=
  ["find"; "find_one"; "insert_one"; "insert_many"; "update_one";
   "update_many"; "delete_one"; "delete_many"; "replace_one"; "aggregate";
   "count_documents"].

(** The operation kinds as the data model of the specification lists
    them. *)
Definition spec_kinds : list string :=
  ["find"; "find_one"; "insert_one"; "insert_many"; "update_one";
   "update_many"; "delete_one"; "delete_many"; "replace_one"; "aggregate";
   "count"].

(** The atomic actions that threads running [getconn], [putconn] and
    [closeall] perform on the shared pool state.  The sections under
    [self._lock] exclude each other and are the only code that touches the
    counter, so each is one action; a queue operation is atomic by the
    queue's own lock; the remaining actions touch the closed flag, one
    connection object or the driver. *)
Inductive action : Type :=
| a_create                              (* _create_connection *)
| a_get                                 (* Queue.get, Queue.get_nowait *)
| a_put (r : ConnectionPool.ref)        (* Queue.put_nowait *)
| a_ping (r : ConnectionPool.ref)
| a_conn_close (r : ConnectionPool.ref)
| a_decrement
| a_set_closed                          (* self._closed = True *)
| a_reset.

Definition perform (K : Constants) (D : Driver) (a : action)
    (p : ConnectionPool.t) : ConnectionPool.t :=
  match a with
  | a_create => snd (ConnectionPool._create_connection K D p)
  | a_get => snd (ConnectionPool.queue_get p)
  | a_put r => snd (ConnectionPool.put_nowait r p)
  | a_ping r => snd (ConnectionPool.ping D r p)
  | a_conn_close r => ConnectionPool.conn_close r p
  | a_decrement => ConnectionPool.decrement p
  | a_set_closed => ConnectionPool.set_closed p true
  | a_reset => ConnectionPool.reset p
  end.

(** Any schedule of atomic actions, whichever threads they come from. *)
Definition perform_all (K : Constants) (D : Driver) (acts : list action)
    (p : ConnectionPool.t) : ConnectionPool.t :=
  fold_left (fun p a => perform K D a p) acts p.

(** The public operations of the pool, for sequences of whole calls. *)
Inductive pool_op : Type :=
| acquire
| release (r : ConnectionPool.ref)
| close_all.

Definition run_pool_op (K : Constants) (D : Driver) (o : pool_op)
    (p : ConnectionPool.t) : ConnectionPool.t :=
  match o with
  | acquire => snd (ConnectionPool.getconn K D p)
  | release r => ConnectionPool.putconn r p
  | close_all => ConnectionPool.closeall p
  end.

Definition run_pool_ops (K : Constants) (D : Driver) (ops : list pool_op)
    (p : ConnectionPool.t) : ConnectionPool.t :=
  fold_left (fun p o => run_pool_op K D o p) ops p.

(** A connection object that [connect()] has opened and nobody closed. *)
Definition live (c : Connection.t) : Prop :=
  is_Some (Connection._client c) /\ Connection._closed c = false.

(** *** Fixtures: a reachable server, a server whose pings fail *)

Module Fixture.

Definition K : Constants := {| DEFAULT_DATABASE := "test" |}.

Definition cfg : Config :=
  {| cfg_dsn := None; cfg_host := Some "localhost"; cfg_port := Some 27017;
     cfg_database := Some "shop"; cfg_username := None;
     cfg_password := None |}.

Definition d1 : document := [("_id", 1); ("qty", 5)].
Definition d2 : document := [("_id", 2); ("qty", 7)].

(** What a conforming driver returns for each method, on a collection
    that holds [d1] and [d2]. *)
Definition answer (k : call) : pyobj :=
  match call_method k with
  | m_find | m_aggregate => PyIter [d1; d2]
  | m_find_one => PyDict d1
  | m_count_documents => PyInt 2
  | m_insert_many => PyWrite (WriteResult true (Some 2) None None)
  | m_update_one | m_update_many | m_replace_one =>
      PyWrite (WriteResult true None (Some 1) None)
  | m_delete_one | m_delete_many =>
      PyWrite (WriteResult true None None (Some 1))
  | m_insert_one => PyWrite (WriteResult true None None None)
  end.

(** The server answers every request. *)
Definition healthy : Driver :=
  {| drv_connect := fun _ _ => Connected;
     drv_ping := fun _ _ => None;
     drv_call := fun _ k => Ok (answer k) |}.

(** The server accepts connections but every ping on an existing handle
    fails: the pooled connections have gone stale. *)
Definition stale : Driver :=
  {| drv_connect := fun _ _ => Connected;
     drv_ping := fun _ _ => Some "connection reset";
     drv_call := fun _ k => Ok (answer k) |}.

(** The server refuses every collection call. *)
Definition failing : Driver :=
  {| drv_connect := fun _ _ => Connected;
     drv_ping := fun _ _ => None;
     drv_call := fun _ _ => Raise (DriverError "network timeout") |}.

(** A connection after [connect()] on the healthy server. *)
Definition connected : Connection.t :=
  snd (fst (Connection.connect K healthy (Connection.init cfg None) [])).

Definition cursor (operation : string) : Cursor.t :=
  Cursor.init connected "items" operation [] [].

(** A connection made with [document_factory=document_factory], and a
    cursor on it. *)
Definition wrapping : Connection.t :=
  snd (fst (Connection.connect K healthy
              (Connection.init cfg (Some document_factory)) [])).

Definition wrapping_cursor (operation : string) : Cursor.t :=
  Cursor.init wrapping "items" operation [] [].

End Fixture.

(** ** Iteration over a cursor ([Cursor.__next__], [Cursor.__iter__]) *)

Module CursorIter.

(** What one [next()] gives: a value, or the end of the iteration. *)
Inductive step (A : Type) : Type :=
| Yield (a : A)
| StopIteration.
Arguments Yield {A} a.
Arguments StopIteration {A}.

(** The generator object returned by [Cursor.__iter__]: where its body is
    suspended. *)
Inductive gen : Type :=
| g_created       (* body not entered yet *)
| g_in_find       (* at the [yield] inside the loop over the result *)
| g_after_one     (* at the [yield] of the find_one branch *)
| g_finished.

Section WithDriver.
Variable D : Driver.

(** [Cursor.__next__] *)
Definition next_ (conn : Connection.t) (c : Cursor.t) (tr : trace)
  : res (step pyobj) * Cursor.t * trace :=
  match Cursor.fetchone D conn c tr with
  | (Raise e, c, tr) => (Raise e, c, tr)
  | (Ok PyNone, c, tr) => (Ok StopIteration, c, tr)
  | (Ok doc, c, tr) => (Ok (Yield doc), c, tr)
  end.

(** One round of [for doc in self._result: yield factory(self, doc)]. *)
Definition find_round (c : Cursor.t) (tr : trace)
  : res (step pyobj) * gen * Cursor.t * trace :=
  match Cursor._result c with
  | PyIter (doc :: rest) =>
      (Ok (Yield (Cursor._document_factory c (PyDict doc))), g_in_find,
       Cursor.set_result c (PyIter rest), tr)
  | PyIter [] => (Ok StopIteration, g_finished, c, tr)
  | _ => (Raise (TypeError "object is not iterable"), g_finished, c, tr)
  end.

(** One [next()] on the generator of [Cursor.__iter__]. *)
Definition gen_next (conn : Connection.t) (g : gen) (c : Cursor.t) (tr : trace)
  : res (step pyobj) * gen * Cursor.t * trace :=
  match g with
  | g_finished | g_after_one => (Ok StopIteration, g_finished, c, tr)
  | g_in_find => find_round c tr
  | g_created =>
      let '(r, c, tr) :=
        if Cursor._executed c then (Ok tt, c, tr)
        else Cursor.execute D conn c tr in
      match r with
      | Raise e => (Raise e, g_finished, c, tr)
      | Ok _ =>
          if String.eqb (Cursor._operation c) "find" then
            match Cursor._result c with
            | PyNone => (Ok StopIteration, g_finished, c, tr)
            | _ => find_round c tr
            end
          else if String.eqb (Cursor._operation c) "find_one" then
            match Cursor.fetchone D conn c tr with
            | (Raise e, c, tr) => (Raise e, g_finished, c, tr)
            | (Ok PyNone, c, tr) => (Ok StopIteration, g_finished, c, tr)
            | (Ok doc, c, tr) => (Ok (Yield doc), g_after_one, c, tr)
            end
          else (Ok StopIteration, g_finished, c, tr)
      end
  end.

(** [list(cursor)], or a [for] loop that runs to the end: [next()] until the
    generator stops.  [fuel] bounds the number of rounds; the generator
    state returned is [g_finished] when the loop came to its end. *)
Fixpoint collect (fuel : nat) (conn : Connection.t) (g : gen) (c : Cursor.t)
    (tr : trace) : res (list pyobj) * gen * Cursor.t * trace :=
  match fuel with
  | O => (Ok [], g, c, tr)
  | S fuel =>
      match gen_next conn g c tr with
      | (Raise e, g, c, tr) => (Raise e, g, c, tr)
      | (Ok StopIteration, g, c, tr) => (Ok [], g, c, tr)
      | (Ok (Yield v), g, c, tr) =>
          match collect fuel conn g c tr with
          | (Ok vs, g, c, tr) => (Ok (v :: vs), g, c, tr)
          | raised => raised
          end
      end
  end.

End WithDriver.

End CursorIter.


(** The factory of a cursor applied to a raw driver document. *)
Definition mapped (c : Cursor.t) (d : document) : pyobj :=
  Cursor._document_factory c (PyDict d).

(** The values of a returned list, none for a raised exception. *)
Definition values_of {A} (r : res (list A)) : list A :=
  match r with Ok vs => vs | Raise _ => [] end.

(** ** Scoped use of a connection ([Connection.__enter__], [__exit__]) *)

Module ConnectionScope.

Section WithDriver.
Variable K : Constants.
Variable D : Driver.

(** [with conn: body].  [__enter__] is [connect()]; when it raises, neither
    the body nor [__exit__] runs.  [__exit__] is [close()] and returns
    [None], so an exception of the body goes on to the caller. *)
Definition with_ {A} (body : Connection.t -> trace -> res A * Connection.t * trace)
    (c : Connection.t) (tr : trace) : res A * Connection.t * trace :=
  match Connection.connect K D c tr with
  | (Raise e, c, tr) => (Raise e, c, tr)
  | (Ok _, c, tr) =>
      let '(out, c, tr) := body c tr in
      let '(c, tr) := Connection.close c tr in
      (out, c, tr)
  end.

End WithDriver.

End ConnectionScope.

(** ** The parameters handed to the driver ([Connection.connect]) *)

Module ClientParams.

Inductive value : Type :=
| v_str (s : string)
| v_int (n : Z).

Section WithFloats.
(** The timeouts are Python floats.  The code only multiplies them by 1000
    and truncates ([to_ms]) and tests them for truth ([nonzero]). *)
Variable float : Type.
Variable to_ms : float -> Z.
Variable nonzero : float -> bool.
(** [DEFAULT_HOST] and [DEFAULT_PORT] of [core/constants.py]. *)
Variable DEFAULT_HOST : string.
Variable DEFAULT_PORT : Z.

(** The constructor arguments of [Connection] that [connect] reads. *)
Record args : Type := MkArgs {
  dsn : option string;
  host : option string;
  port : option Z;
  username : option string;
  password : option string;
  auth_source : option string;
  auth_mechanism : option string;
  connect_timeout : float;
  server_selection_timeout : float;
  socket_timeout : option float
}.

(** Truth value of an optional string. *)
Definition truthy (s : option string) : bool :=
  match s with
  | Some x => negb (String.eqb x "")
  | None => false
  end.

(** [client_params[key] = s] inside [if s:]. *)
Definition opt_entry (key : string) (s : option string)
  : list (string * value) :=
  match s with
  | Some x => if String.eqb x "" then [] else [(key, v_str x)]
  | None => []
  end.

(** [self._port or DEFAULT_PORT] *)
Definition port_or_default (p : option Z) : Z :=
  match p with
  | Some n => if n =? 0 then DEFAULT_PORT else n
  | None => DEFAULT_PORT
  end.

(** The [else] branch: discrete host, port and credentials. *)
Definition discrete_params (a : args) : list (string * value) :=
  [("host", v_str (or_default (host a) DEFAULT_HOST));
   ("port", v_int (port_or_default (port a)))]
  ++ opt_entry "username" (username a)
  ++ opt_entry "password" (password a)
  ++ opt_entry "authSource" (auth_source a)
  ++ opt_entry "authMechanism" (auth_mechanism a).

(** The dictionary [client_params], in insertion order. *)
Definition client_params (a : args) : list (string * value) :=
  (match dsn a with
   | Some s => if String.eqb s "" then discrete_params a
               else [("host", v_str s)]
   | None => discrete_params a
   end)
  ++ [("connectTimeoutMS", v_int (to_ms (connect_timeout a)));
      ("serverSelectionTimeoutMS", v_int (to_ms (server_selection_timeout a)))]
  ++ match socket_timeout a with
     | Some t => if nonzero t then [("socketTimeoutMS", v_int (to_ms t))] else []
     | None => []
     end.

(** [d.get(key)] on a dictionary kept in insertion order. *)
Fixpoint lookup (key : string) (d : list (string * value)) : option value :=
  match d with
  | [] => None
  | (k, v) :: d => if String.eqb key k then Some v else lookup key d
  end.

End WithFloats.

Arguments dsn {float} a.
Arguments host {float} a.
Arguments port {float} a.
Arguments username {float} a.
Arguments password {float} a.
Arguments auth_source {float} a.
Arguments auth_mechanism {float} a.
Arguments connect_timeout {float} a.
Arguments server_selection_timeout {float} a.
Arguments socket_timeout {float} a.
Arguments discrete_params {float} DEFAULT_HOST DEFAULT_PORT a.
Arguments client_params {float} to_ms nonzero DEFAULT_HOST DEFAULT_PORT a.

End ClientParams.

(** ** Scoped use of the pool ([ConnectionPool.connection], [__exit__]) *)

Module PoolScope.

Section WithDriver.
Variable K : Constants.
Variable D : Driver.

(** [with pool.connection() as conn: body].  The body receives the
    reference and works on the shared state; [putconn] runs in the
    [finally] clause, whether the body returned or raised. *)
Definition connection {A}
    (body : ConnectionPool.ref -> ConnectionPool.t -> res A * ConnectionPool.t)
    (p : ConnectionPool.t) : res A * ConnectionPool.t :=
  match ConnectionPool.getconn K D p with
  | (Raise e, p) => (Raise e, p)
  | (Ok r, p) =>
      let '(out, p) := body r p in
      (out, ConnectionPool.putconn r p)
  end.

(** [with pool: body]: [__enter__] returns the pool, [__exit__] is
    [closeall()]. *)
Definition with_pool {A} (body : ConnectionPool.t -> res A * ConnectionPool.t)
    (p : ConnectionPool.t) : res A * ConnectionPool.t :=
  let '(out, p) := body p in
  (out, ConnectionPool.closeall p).

(** [n] successive calls of [getconn()], nothing released in between: the
    outcome of each call, in order. *)
Fixpoint getconn_times (n : nat) (p : ConnectionPool.t)
  : list (res ConnectionPool.ref) * ConnectionPool.t :=
  match n with
  | O => ([], p)
  | S n =>
      let '(out, p) := ConnectionPool.getconn K D p in
      let '(outs, p) := getconn_times n p in
      (out :: outs, p)
  end.

End WithDriver.

End PoolScope.

(** The connection object behind a reference is marked closed. *)
Definition closed_at (r : ConnectionPool.ref) (p : ConnectionPool.t) : Prop :=
  exists c, ConnectionPool.heap p !! r = Some c /\ Connection._closed c = true.

(** The connection object behind a reference is live. *)
Definition live_at (r : ConnectionPool.ref) (p : ConnectionPool.t) : Prop :=
  exists c, ConnectionPool.heap p !! r = Some c /\ live c.

(** The server accepts every connection. *)
Definition always_connects (D : Driver) : Prop :=
  forall tr cfg, drv_connect D tr cfg = Connected.

(** ** QueryBuilder ([advanced/query_builder.py]) *)

Module QueryBuilder.

(** A Python [dict] with string keys, as its items in insertion order.
    [d[k] = v] replaces the value of an existing key in place and appends
    a new key at the end. *)
Fixpoint dict_set {V} (k : string) (v : V) (d : list (string * V))
  : list (string * V) :=
  match d with
  | [] => [(k, v)]
  | (k', v') :: d =>
      if String.eqb k k' then (k, v) :: d else (k', v') :: dict_set k v d
  end.

(** [d.get(k)] *)
Fixpoint dict_get {V} (k : string) (d : list (string * V)) : option V :=
  match d with
  | [] => None
  | (k', v) :: d => if String.eqb k k' then Some v else dict_get k d
  end.

(** [d.update(other)] *)
Definition dict_update {V} (d other : list (string * V)) : list (string * V) :=
  fold_left (fun d kv => dict_set (fst kv) (snd kv) d) other d.

(** The builder.  Its [_conn] is a reference to a connection; the methods
    that use it receive the connection's state. *)
Record t : Type := Mk {
  _collection : string;
  _filter : document;
  _projection : option (list (string * Z));
  _sort : list (string * Z);
  _limit : option Z;
  _skip : option Z
}.

(** [QueryBuilder.__init__] *)
Definition init (collection : string) : t :=
  {| _collection := collection; _filter := []; _projection := None;
     _sort := []; _limit := None; _skip := None |}.

(** [filter], called with keyword arguments, and [where(condition)] *)
Definition filter (kwargs : document) (q : t) : t :=
  {| _collection := _collection q;
     _filter := dict_update (_filter q) kwargs;
     _projection := _projection q; _sort := _sort q;
     _limit := _limit q; _skip := _skip q |}.

(** [where] is a reserved word here, hence the underscore. *)
Definition where_ (condition : document) (q : t) : t := filter condition q.

Definition set_projection (q : t) (p : option (list (string * Z))) : t :=
  {| _collection := _collection q; _filter := _filter q;
     _projection := p; _sort := _sort q;
     _limit := _limit q; _skip := _skip q |}.

(** [select], called with field names *)
Definition select (fields : list string) (q : t) : t :=
  match fields with
  | [] => q
  | _ => set_projection q
           (Some (fold_left (fun d f => dict_set f 1 d) fields []))
  end.

(** [exclude], called with field names *)
Definition exclude (fields : list string) (q : t) : t :=
  match fields with
  | [] => q
  | _ =>
      let p := match _projection q with Some p => p | None => [] end in
      set_projection q (Some (fold_left (fun d f => dict_set f 0 d) fields p))
  end.

(** One positional field of [sort]: a leading minus sign means
    descending. *)
Definition sort_field (field : string) : string * Z :=
  match field with
  | String "-"%char rest => (rest, -1)
  | _ => (field, 1)
  end.

(** One keyword of [sort]: [1 if direction > 0 else -1]. *)
Definition sort_keyword (kv : string * Z) : string * Z :=
  (fst kv, if 0 <? snd kv then 1 else -1).

(** [sort], called with field names and keyword directions *)
Definition sort (fields : list string) (kwargs : list (string * Z)) (q : t) : t :=
  {| _collection := _collection q; _filter := _filter q;
     _projection := _projection q;
     _sort := _sort q ++ map sort_field fields ++ map sort_keyword kwargs;
     _limit := _limit q; _skip := _skip q |}.

(** [order_by], called with field names *)
Definition order_by (fields : list string) (q : t) : t := sort fields [] q.

(** [limit(n)] *)
Definition limit (n : Z) (q : t) : t :=
  {| _collection := _collection q; _filter := _filter q;
     _projection := _projection q; _sort := _sort q;
     _limit := Some n; _skip := _skip q |}.

(** [skip(n)] and [offset(n)] *)
Definition skip (n : Z) (q : t) : t :=
  {| _collection := _collection q; _filter := _filter q;
     _projection := _projection q; _sort := _sort q;
     _limit := _limit q; _skip := Some n |}.

Definition offset (n : Z) (q : t) : t := skip n q.

(** The dictionary returned by [build()]: [filter] is always there, the
    other keys only when set ([None] stands for an absent key). *)
Record params : Type := MkParams {
  p_filter : document;
  p_projection : option (list (string * Z));
  p_sort : option (list (string * Z));
  p_limit : option Z;
  p_skip : option Z
}.

(** [build()] *)
Definition build (q : t) : params :=
  {| p_filter := _filter q;
     p_projection := match _projection q with
                     | Some (_ :: _ as p) => Some p
                     | _ => None
                     end;
     p_sort := match _sort q with [] => None | s => Some s end;
     p_limit := _limit q;
     p_skip := _skip q |}.

Section WithDriver.
Variable D : Driver.

(** The step shared by [count], [delete_one] and [delete_many]: a cursor
    for the operation with the filter as its only argument, executed. *)
Definition run_filter_op (operation : string) (conn : Connection.t) (q : t)
    (tr : trace) : res Cursor.t * trace :=
  match Connection_execute conn (_collection q) operation
          [p_filter (build q)] [] with
  | Raise e => (Raise e, tr)
  | Ok cursor =>
      match Cursor.execute D conn cursor tr with
      | (Raise e, _, tr) => (Raise e, tr)
      | (Ok _, cursor, tr) => (Ok cursor, tr)
      end
  end.

(** [count()]: [cursor.rowcount] of an executed count_documents cursor. *)
Definition count (conn : Connection.t) (q : t) (tr : trace)
  : res pyobj * trace :=
  match run_filter_op "count_documents" conn q tr with
  | (Raise e, tr) => (Raise e, tr)
  | (Ok cursor, tr) => (Cursor.rowcount cursor, tr)
  end.

(** [delete_one()]: [cursor.result] of an executed delete_one cursor. *)
Definition delete_one (conn : Connection.t) (q : t) (tr : trace)
  : res pyobj * trace :=
  match run_filter_op "delete_one" conn q tr with
  | (Raise e, tr) => (Raise e, tr)
  | (Ok cursor, tr) => (Ok (Cursor.result cursor), tr)
  end.

(** [delete_many()] *)
Definition delete_many (conn : Connection.t) (q : t) (tr : trace)
  : res pyobj * trace :=
  match run_filter_op "delete_many" conn q tr with
  | (Raise e, tr) => (Raise e, tr)
  | (Ok cursor, tr) => (Ok (Cursor.result cursor), tr)
  end.

End WithDriver.

(** The chainable methods, for sequences of calls. *)
Inductive method_call : Type :=
| c_filter (kwargs : document)
| c_where (condition : document)
| c_select (fields : list string)
| c_exclude (fields : list string)
| c_sort (fields : list string) (kwargs : list (string * Z))
| c_order_by (fields : list string)
| c_limit (n : Z)
| c_skip (n : Z)
| c_offset (n : Z).

Definition apply (k : method_call) (q : t) : t :=
  match k with
  | c_filter kw => filter kw q
  | c_where c => where_ c q
  | c_select fs => select fs q
  | c_exclude fs => exclude fs q
  | c_sort fs kw => sort fs kw q
  | c_order_by fs => order_by fs q
  | c_limit n => limit n q
  | c_skip n => skip n q
  | c_offset n => offset n q
  end.

Definition chain (ks : list method_call) (q : t) : t :=
  fold_left (fun q k => apply k q) ks q.

(** What the chain keeps true of a builder. *)
Definition well_formed (q : t) : Prop :=
  Forall (fun e => snd e = 1 \/ snd e = -1) (_sort q)
  /\ (forall p, _projection q = Some p ->
                Forall (fun e => snd e = 0 \/ snd e = 1) p).

End QueryBuilder.

(** ** Transaction ([advanced/transaction.py]) *)

Module Transaction.

(** The session calls that reach the driver. *)
Inductive sevent : Type :=
| s_start_session (h : handle)     (* client.start_session() *)
| s_start_transaction (s : nat)    (* session.start_transaction() *)
| s_commit (s : nat)               (* session.commit_transaction() *)
| s_abort (s : nat)                (* session.abort_transaction() *)
| s_end (s : nat).                 (* session.end_session() *)

Definition slog : Type := list sevent.

(** The driver's side of sessions: whether a call raises, given the calls
    made so far ([Some e]: it raises [e]).  A session is numbered by the
    position of its creation in the log. *)
Definition SessionDriver : Type := slog -> sevent -> option string.

(** What the transaction code raises: its own [DatabaseError], or an
    exception that passes through it. *)
Inductive raised : Type :=
| DatabaseError (msg : string)
| Passed (e : exn).

Inductive outcome (A : Type) : Type :=
| Returned (a : A)
| Raised (e : raised).
Arguments Returned {A} a.
Arguments Raised {A} e.

(** The [Transaction] object; its [_conn] is a reference to a connection
    whose state the methods receive. *)
Record t : Type := Mk {
  _session : option nat;
  _started : bool
}.

(** [Transaction.__init__] *)
Definition init : t := {| _session := None; _started := false |}.

Definition start_failed (cause : string) : raised :=
  DatabaseError ("Failed to start transaction: " ++ cause)%string.

Section WithDriver.
Variable S : SessionDriver.

(** [Transaction.__enter__]: [None] stands for a normal return. *)
Definition enter (conn : Connection.t) (tx : t) (log : slog)
  : option raised * t * slog :=
  match Connection.client conn with
  | Raise e => (Some (start_failed (str e)), tx, log)
  | Ok h =>
      let log1 := log ++ [s_start_session h] in
      match S log (s_start_session h) with
      | Some e => (Some (start_failed e), tx, log1)
      | None =>
          let s := length log in
          let tx := {| _session := Some s; _started := _started tx |} in
          let log2 := log1 ++ [s_start_transaction s] in
          match S log1 (s_start_transaction s) with
          | Some e => (Some (start_failed e), tx, log2)
          | None => (None, {| _session := Some s; _started := true |}, log2)
          end
      end
  end.

(** [Transaction.__exit__]; [failed] says that the body raised
    ([exc_type is not None]).  The session object is truthy.  An exception
    of [end_session] in the [finally] clause replaces one of the commit or
    abort. *)
Definition exit_ (failed : bool) (tx : t) (log : slog)
  : option raised * t * slog :=
  match _session tx with
  | None => (None, {| _session := None; _started := false |}, log)
  | Some s =>
      let ev := if failed then s_abort s else s_commit s in
      let log1 := log ++ [ev] in
      let log2 := log1 ++ [s_end s] in
      match S log1 (s_end s) with
      | Some e2 => (Some (Passed (DriverError e2)), tx, log2)
      | None =>
          match S log ev with
          | Some e1 =>
              (Some (Passed (DriverError e1)),
               {| _session := None; _started := _started tx |}, log2)
          | None => (None, {| _session := None; _started := false |}, log2)
          end
      end
  end.

(** [with Transaction(conn): body].  When [__enter__] raises, neither the
    body nor [__exit__] runs.  [__exit__] returns [None], so an exception of
    the body goes on to the caller unless [__exit__] raises itself. *)
Definition with_ {A} (body : slog -> res A * slog) (conn : Connection.t)
    (log : slog) : outcome A * t * slog :=
  match enter conn init log with
  | (Some e, tx, log) => (Raised e, tx, log)
  | (None, tx, log) =>
      let '(out, log) := body log in
      match exit_ (negb (is_ok out)) tx log with
      | (Some e, tx, log) => (Raised e, tx, log)
      | (None, tx, log) =>
          (match out with
           | Ok a => Returned a
           | Raise e => Raised (Passed e)
           end, tx, log)
      end
  end.

End WithDriver.

(** A driver whose session calls never raise. *)
Definition reliable : SessionDriver := fun _ _ => None.

End Transaction.

(** ** Type registry ([core/types.py]) *)

Module TypeRegistry.

(** [str.upper()] on ASCII text: the letters a to z are raised, every other
    character is kept.  Type names are ASCII. *)
Definition upper_char (a : ascii) : ascii :=
  let n := nat_of_ascii a in
  if ((97 <=? n) && (n <=? 122))%nat then ascii_of_nat (n - 32) else a.

Fixpoint upper (s : string) : string :=
  match s with
  | EmptyString => EmptyString
  | String a s => String (upper_char a) (upper s)
  end.

Section WithValues.
(** Python values, their classes, and [issubclass] between classes. *)
Variable V : Type.
Variable T : Type.
Context `{EqDecision T}.
Variable issubclass : T -> T -> bool.
Variable type_of : V -> T.

(** The two class-level dictionaries: [_adapters], in insertion order (the
    subclass search walks it in that order), and [_converters]. *)
Record t : Type := Mk {
  _adapters : list (T * (V -> V));
  _converters : gmap string (V -> res V)
}.

(** [_adapters[type_] = adapter] *)
Fixpoint adapters_set (ty : T) (f : V -> V) (d : list (T * (V -> V)))
  : list (T * (V -> V)) :=
  match d with
  | [] => [(ty, f)]
  | (ty', f') :: d =>
      if decide (ty = ty') then (ty, f) :: d
      else (ty', f') :: adapters_set ty f d
  end.

(** [TypeRegistry.register_adapter] *)
Definition register_adapter (ty : T) (f : V -> V) (r : t) : t :=
  {| _adapters := adapters_set ty f (_adapters r);
     _converters := _converters r |}.

(** [TypeRegistry.register_converter] *)
Definition register_converter (typename : string) (f : V -> res V) (r : t) : t :=
  {| _adapters := _adapters r;
     _converters := <[upper typename := f]> (_converters r) |}.

(** [_adapters[type_]] when [type_ in _adapters] *)
Fixpoint exact (ty : T) (d : list (T * (V -> V))) : option (V -> V) :=
  match d with
  | [] => None
  | (ty', f) :: d => if decide (ty = ty') then Some f else exact ty d
  end.

(** The loop over [_adapters.items()] looking for a registered superclass. *)
Fixpoint by_subclass (ty : T) (d : list (T * (V -> V))) : option (V -> V) :=
  match d with
  | [] => None
  | (ty', f) :: d => if issubclass ty ty' then Some f else by_subclass ty d
  end.

(** [TypeRegistry.get_adapter] *)
Definition get_adapter (ty : T) (r : t) : option (V -> V) :=
  match exact ty (_adapters r) with
  | Some f => Some f
  | None => by_subclass ty (_adapters r)
  end.

(** [TypeRegistry.get_converter] *)
Definition get_converter (typename : string) (r : t) : option (V -> res V) :=
  _converters r !! upper typename.

(** [TypeRegistry.adapt]; [None] of Python is the [None] here. *)
Definition adapt (value : option V) (r : t) : option V :=
  match value with
  | None => None
  | Some v =>
      match get_adapter (type_of v) r with
      | Some f => Some (f v)
      | None => Some v
      end
  end.

(** [TypeRegistry.convert] *)
Definition convert (typename : string) (value : V) (r : t) : res V :=
  match get_converter typename r with
  | Some f => f value
  | None => Ok value
  end.

End WithValues.

Arguments Mk {V T}.
Arguments _adapters {V T}.
Arguments _converters {V T}.
Arguments adapters_set {V T _}.
Arguments register_adapter {V T _}.
Arguments register_converter {V T}.
Arguments exact {V T _}.
Arguments by_subclass {V T}.
Arguments get_adapter {V T _}.
Arguments get_converter {V T}.
Arguments adapt {V T _}.
Arguments convert {V T}.

End TypeRegistry.

(** ** Module-level [connect] and the application wrapper ([app.py]) *)

Module MongoApp.

Section WithDriver.
Variable K : Constants.
Variable D : Driver.

(** [connect(...)] of [core/connection.py]: construct, connect, return the
    connection; an exception of [connect()] leaves the caller without
    one. *)
Definition connect (cfg : Config) (tr : trace) : res Connection.t * trace :=
  let '(out, c, tr) :=
    Connection.connect K D (Connection.init cfg None) tr in
  match out with
  | Ok _ => (Ok c, tr)
  | Raise e => (Raise e, tr)
  end.

(** The application object.  [args] stands for the connection arguments
    that [_create_connection] reads out of the configuration tree. *)
Record t : Type := Mk {
  args : Config;
  _connection : option Connection.t
}.

(** [MongoApp.__init__] *)
Definition init (args : Config) : t :=
  {| args := args; _connection := None |}.

(** The [connection] property. *)
Definition connection (app : t) (tr : trace) : res Connection.t * t * trace :=
  match _connection app with
  | Some c => (Ok c, app, tr)
  | None =>
      match connect (args app) tr with
      | (Ok c, tr) => (Ok c, {| args := args app; _connection := Some c |}, tr)
      | (Raise e, tr) => (Raise e, app, tr)
      end
  end.

(** The [client] property: [self.connection.client]. *)
Definition client (app : t) (tr : trace) : res handle * t * trace :=
  match connection app tr with
  | (Ok c, app, tr) => (Connection.client c, app, tr)
  | (Raise e, app, tr) => (Raise e, app, tr)
  end.

(** [MongoApp.close] *)
Definition close (app : t) (tr : trace) : t * trace :=
  match _connection app with
  | Some c =>
      let '(_, tr) := Connection.close c tr in
      ({| args := args app; _connection := None |}, tr)
  | None => (app, tr)
  end.

(** [n] successive reads of the [client] property. *)
Fixpoint client_times (n : nat) (app : t) (tr : trace)
  : list (res handle) * t * trace :=
  match n with
  | O => ([], app, tr)
  | S n =>
      let '(out, app, tr) := client app tr in
      let '(outs, app, tr) := client_times n app tr in
      (out :: outs, app, tr)
  end.

End WithDriver.

End MongoApp.

(** Number of [MongoClient] calls in a driver history. *)
Fixpoint connects (tr : trace) : nat :=
  match tr with
  | [] => O
  | EConnect _ :: tr => S (connects tr)
  | _ :: tr => connects tr
  end.

(** * Properties *)

(** ** Connection *)

Section ConnectionFacts.
Variable K : Constants.
Variable D : Driver.

Lemma connect_keeps_closed c tr :
  Connection._closed (snd (fst (Connection.connect K D c tr)))
  = Connection._closed c.
Proof.
  unfold Connection.connect.
  destruct (Connection._client c); [reflexivity|].
  destruct (drv_connect D tr (Connection._cfg c)); reflexivity.
Qed.

Lemma close_sets_closed c tr :
  Connection._closed (fst (Connection.close c tr)) = true.
Proof.
  unfold Connection.close. destruct (Connection._client c); reflexivity.
Qed.

Lemma close_drops_client c tr :
  Connection._client (fst (Connection.close c tr)) = None.
Proof.
  unfold Connection.close.
  destruct (Connection._client c) eqn:E; simpl; [reflexivity | exact E].
Qed.

Lemma close_keeps_cfg c tr :
  Connection._cfg (fst (Connection.close c tr)) = Connection._cfg c.
Proof.
  unfold Connection.close. destruct (Connection._client c); reflexivity.
Qed.

Lemma run_conn_op_keeps_closed o s :
  Connection._closed (fst s) = true ->
  Connection._closed (fst (run_conn_op K D o s)) = true.
Proof.
  intros H. destruct o; simpl.
  - pose proof (connect_keeps_closed (fst s) (snd s)) as E.
    destruct (Connection.connect K D (fst s) (snd s)) as [[out c] tr].
    simpl in *. congruence.
  - apply close_sets_closed.
Qed.

Lemma run_conn_ops_keep_closed ops : forall s,
  Connection._closed (fst s) = true ->
  Connection._closed (fst (run_conn_ops K D ops s)) = true.
Proof.
  unfold run_conn_ops.
  induction ops as [|o ops IH]; intros s H; simpl; [exact H|].
  apply IH, run_conn_op_keeps_closed, H.
Qed.

(** A connection whose flag is set refuses all four entry points. *)
Lemma closed_refuses_everything c :
  Connection._closed c = true ->
  (forall coll op args kw,
      Connection_execute c coll op args kw = Raise Connection.closed_msg)
  /\ (forall name, Connection.collection c name = Raise Connection.closed_msg)
  /\ Connection.database c = Raise Connection.closed_msg
  /\ Connection.client c = Raise Connection.closed_msg.
Proof.
  intros H.
  unfold Connection_execute, Connection.collection, Connection.database,
    Connection.client.
  rewrite H. repeat split; reflexivity.
Qed.

(** C10. Once [close()] has run, the closed flag is true after every
    later sequence of [connect()] and [close()] calls, and [execute],
    [collection], [database] and [client] raise the closed-connection
    error.  In particular a [connect()] right after [close()] that the
    driver accepts opens a new handle (a connect event is added to the
    driver history and [_client] holds the handle it created) and stores
    a database reference, yet leaves the flag set. *)
Theorem closed_flag_survives_reconnect c tr ops :
  let s0 := Connection.close c tr in
  let s := run_conn_ops K D ops s0 in
  (Connection.closed (fst s) = true
   /\ (forall coll op args kw,
         Connection_execute (fst s) coll op args kw
         = Raise Connection.closed_msg)
   /\ (forall name,
         Connection.collection (fst s) name = Raise Connection.closed_msg)
   /\ Connection.database (fst s) = Raise Connection.closed_msg
   /\ Connection.client (fst s) = Raise Connection.closed_msg)
  /\ (drv_connect D (snd s0) (Connection._cfg c) = Connected ->
      let '(out, c1, tr1) := Connection.connect K D (fst s0) (snd s0) in
      out = Ok tt
      /\ Connection._client c1 = Some (length (snd s0))
      /\ (exists db, Connection._db c1 = Some db
                     /\ db_client db = length (snd s0))
      /\ tr1 = snd s0 ++ [EConnect (Connection._cfg c)]
      /\ Connection._closed c1 = true).
Proof.
  intros s0 s. split.
  - assert (H : Connection._closed (fst s) = true).
    { apply run_conn_ops_keep_closed, close_sets_closed. }
    split; [exact H|]. apply closed_refuses_everything, H.
  - intros HD. unfold Connection.connect.
    subst s0. rewrite close_drops_client, close_keeps_cfg, HD. simpl.
    repeat split; try reflexivity.
    + eexists; split; reflexivity.
    + apply close_sets_closed.
Qed.

End ConnectionFacts.

Lemma closed_flag_survives_reconnect_witness :
  let s0 := Connection.close Fixture.connected [EConnect Fixture.cfg] in
  drv_connect Fixture.healthy (snd s0) (Connection._cfg Fixture.connected)
  = Connected
  /\ Connection._client
       (snd (fst (Connection.connect Fixture.K Fixture.healthy
                    (fst s0) (snd s0)))) = Some 2%nat
  /\ Connection.client
       (snd (fst (Connection.connect Fixture.K Fixture.healthy
                    (fst s0) (snd s0)))) = Raise Connection.closed_msg.
Proof.
  intros s0.
  pose proof (closed_flag_survives_reconnect Fixture.K Fixture.healthy
                Fixture.connected [EConnect Fixture.cfg] [op_connect]) as H.
  destruct H as [H1 H2].
  assert (HD : drv_connect Fixture.healthy (snd s0)
                 (Connection._cfg Fixture.connected) = Connected)
    by reflexivity.
  specialize (H2 HD).
  split; [exact HD|]. split.
  - apply H2.
  - apply H1.
Defined.

(** ** Cursor *)

Lemma driver_calls_app tr tr' :
  driver_calls (tr ++ tr') = (driver_calls tr + driver_calls tr')%nat.
Proof.
  induction tr as [|e tr IH]; simpl; [reflexivity|].
  destruct e; simpl; rewrite IH; reflexivity.
Qed.

Lemma method_of_name m : Cursor.method_of (method_name m) = Some m.
Proof. destruct m; reflexivity. Qed.

Lemma method_of_some op m : Cursor.method_of op = Some m -> method_name m = op.
Proof.
  unfold Cursor.method_of.
  repeat match goal with
         | |- context [String.eqb op ?s] =>
             destruct (String.eqb_spec op s) as [->|_];
             [intros [= <-]; reflexivity|]
         end.
  discriminate.
Qed.

Lemma method_of_dispatch_kinds op :
  In op dispatch_kinds <-> exists m, Cursor.method_of op = Some m.
Proof.
  split.
  - intros H. unfold dispatch_kinds in H. simpl in H.
    repeat (destruct H as [<-|H]; [eexists; reflexivity|]). destruct H.
  - intros [m H]. apply method_of_some in H. subst op.
    destruct m; simpl; tauto.
Qed.

Lemma method_of_none op :
  Cursor.method_of op = None <-> ~ In op dispatch_kinds.
Proof.
  rewrite method_of_dispatch_kinds. split.
  - intros H [m Hm]. congruence.
  - intros H. destruct (Cursor.method_of op) eqn:E; [|reflexivity].
    exfalso. apply H. eexists; reflexivity.
Qed.

Section CursorFacts.
Variable D : Driver.

(** What [dispatch] does once the collection is at hand. *)
Lemma dispatch_known conn c tr coll m :
  Connection.collection conn (Cursor._collection_name c) = Ok coll ->
  Cursor.method_of (Cursor._operation c) = Some m ->
  Cursor.dispatch D conn c tr =
    match drv_call D tr (Cursor.call_of c coll m) with
    | Ok r => (Ok tt, Cursor.set_executed (Cursor.set_result c r) true,
               tr ++ [ECall (Cursor.call_of c coll m)])
    | Raise e => (Raise e, c, tr ++ [ECall (Cursor.call_of c coll m)])
    end.
Proof.
  intros Hc Hm. unfold Cursor.dispatch. rewrite Hc, Hm.
  destruct (drv_call D tr (Cursor.call_of c coll m)); reflexivity.
Qed.

Lemma collection_ok_not_closed conn name coll :
  Connection.collection conn name = Ok coll -> Connection.closed conn = false.
Proof.
  unfold Connection.collection, Connection.closed.
  destruct (Connection._closed conn); [discriminate | reflexivity].
Qed.

(** [execute] on a pending cursor over a usable connection. *)
Lemma execute_pending_known conn c tr coll m :
  Cursor._executed c = false ->
  Connection.collection conn (Cursor._collection_name c) = Ok coll ->
  Cursor.method_of (Cursor._operation c) = Some m ->
  Cursor.execute D conn c tr =
    match drv_call D tr (Cursor.call_of c coll m) with
    | Ok r => (Ok tt, Cursor.set_executed (Cursor.set_result c r) true,
               tr ++ [ECall (Cursor.call_of c coll m)])
    | Raise e => (Raise (Cursor.operation_failed (str e)), c,
                  tr ++ [ECall (Cursor.call_of c coll m)])
    end.
Proof.
  intros He Hc Hm. unfold Cursor.execute.
  rewrite He, (collection_ok_not_closed _ _ _ Hc),
    (dispatch_known _ _ _ _ _ Hc Hm).
  destruct (drv_call D tr (Cursor.call_of c coll m)); reflexivity.
Qed.

(** The outcomes of [dispatch]: it changes the cursor only when it
    returns, and then by storing the result and setting the flag; it
    talks to the driver at most once. *)
Lemma dispatch_cases conn c tr :
  (exists e tr', Cursor.dispatch D conn c tr = (Raise e, c, tr')
                 /\ (driver_calls tr' <= S (driver_calls tr))%nat)
  \/ (exists r k, Cursor.dispatch D conn c tr
                  = (Ok tt, Cursor.set_executed (Cursor.set_result c r) true,
                     tr ++ [ECall k])).
Proof.
  unfold Cursor.dispatch.
  destruct (Connection.collection conn (Cursor._collection_name c)) as [coll|e].
  - destruct (Cursor.method_of (Cursor._operation c)) as [m|].
    + destruct (drv_call D tr (Cursor.call_of c coll m)) as [r|e].
      * right. eauto.
      * left. eexists _, _. split; [reflexivity|].
        rewrite driver_calls_app. simpl. lia.
    + left. eexists _, _. split; [reflexivity|]. lia.
  - left. eexists _, _. split; [reflexivity|]. lia.
Qed.

(** The outcomes of [execute]. *)
Lemma execute_cases conn c tr :
  (Cursor._executed c = true /\ Cursor.execute D conn c tr = (Ok tt, c, tr))
  \/ (Cursor._executed c = false
      /\ exists e tr', Cursor.execute D conn c tr = (Raise e, c, tr'))
  \/ (Cursor._executed c = false
      /\ exists r k, Cursor.execute D conn c tr
                     = (Ok tt, Cursor.set_executed (Cursor.set_result c r) true,
                        tr ++ [ECall k])).
Proof.
  unfold Cursor.execute. destruct (Cursor._executed c) eqn:He.
  - left. split; reflexivity.
  - right. destruct (Connection.closed conn).
    + left. split; [reflexivity|]. eauto.
    + destruct (dispatch_cases conn c tr) as [(e & tr' & -> & _)|(r & k & ->)].
      * left. split; [reflexivity|]. eauto.
      * right. split; [reflexivity|]. eauto.
Qed.

(** C5. A second [execute()] after a successful one is a no-op that
    returns the same cursor: the cursor and the driver history are
    unchanged, whatever the state of the connection by then.  The flag
    is set by the first call, which, when the cursor was pending, made
    exactly one driver call; the second call makes none. *)
Theorem execute_twice_same_as_once conn conn' c tr c1 tr1 :
  Cursor.execute D conn c tr = (Ok tt, c1, tr1) ->
  Cursor._executed c1 = true
  /\ Cursor.execute D conn' c1 tr1 = (Ok tt, c1, tr1)
  /\ (Cursor._executed c = false ->
      driver_calls tr1 = S (driver_calls tr)
      /\ driver_calls (snd (Cursor.execute D conn' c1 tr1))
         = S (driver_calls tr)).
Proof.
  intros H.
  assert (He1 : Cursor._executed c1 = true).
  { destruct (execute_cases conn c tr)
      as [[He E]|[[He (e & tr' & E)]|[He (r & k & E)]]];
      rewrite E in H; inversion H; subst; [exact He | reflexivity]. }
  assert (Hn : Cursor.execute D conn' c1 tr1 = (Ok tt, c1, tr1)).
  { unfold Cursor.execute. rewrite He1. reflexivity. }
  split; [exact He1|]. split; [exact Hn|].
  intros He. rewrite Hn. simpl.
  destruct (execute_cases conn c tr)
    as [[He' E]|[[_ (e & tr' & E)]|[_ (r & k & E)]]];
    rewrite E in H; inversion H; subst.
  - congruence.
  - rewrite driver_calls_app. simpl. split; lia.
Qed.

(** C9. A failed [execute()] leaves the cursor as it was: the flag is
    still false and the stored result is unchanged.  A later [execute()]
    or [fetchone()] therefore goes to the driver again: over a usable
    connection it issues the cursor's driver call. *)
Theorem failed_execute_is_retryable conn c tr e c1 tr1 :
  Cursor.execute D conn c tr = (Raise e, c1, tr1) ->
  c1 = c
  /\ Cursor._executed c1 = false
  /\ Cursor._result c1 = Cursor._result c
  /\ (forall conn2 coll m,
        Connection.collection conn2 (Cursor._collection_name c) = Ok coll ->
        Cursor.method_of (Cursor._operation c) = Some m ->
        snd (Cursor.execute D conn2 c1 tr1)
        = tr1 ++ [ECall (Cursor.call_of c coll m)]
        /\ snd (Cursor.fetchone D conn2 c1 tr1)
           = tr1 ++ [ECall (Cursor.call_of c coll m)]).
Proof.
  intros H.
  assert (Hc1 : c1 = c /\ Cursor._executed c = false).
  { destruct (execute_cases conn c tr)
      as [[He E]|[[He (e' & tr' & E)]|[He (r & k & E)]]];
      rewrite E in H; inversion H; split; congruence. }
  destruct Hc1 as [-> He].
  split; [reflexivity|]. split; [exact He|]. split; [reflexivity|].
  intros conn2 coll m Hc Hm.
  assert (Hx : snd (Cursor.execute D conn2 c tr1)
               = tr1 ++ [ECall (Cursor.call_of c coll m)]).
  { rewrite (execute_pending_known conn2 c tr1 coll m He Hc Hm).
    destruct (drv_call D tr1 (Cursor.call_of c coll m)); reflexivity. }
  split; [exact Hx|].
  unfold Cursor.fetchone. rewrite He.
  destruct (Cursor.execute D conn2 c tr1) as [[out c2] tr2].
  simpl in Hx. subst tr2.
  destruct out as [[]|e2]; [|reflexivity].
  destruct (String.eqb (Cursor._operation c2) "find_one").
  { destruct (Cursor._result c2); reflexivity. }
  destruct (String.eqb (Cursor._operation c2) "find"); [|reflexivity].
  unfold Cursor.next_mapped.
  destruct (Cursor._result c2) as [| | | |l|]; try reflexivity.
  destruct l; reflexivity.
Qed.

End CursorFacts.

Lemma execute_twice_same_as_once_witness :
  let c := Fixture.cursor "insert_one" in
  let run := Cursor.execute Fixture.healthy Fixture.connected c [] in
  let c1 := snd (fst run) in
  let tr1 := snd run in
  run = (Ok tt, c1, tr1)
  /\ Cursor._executed c = false
  /\ Cursor.execute Fixture.healthy Fixture.connected c1 tr1 = (Ok tt, c1, tr1)
  /\ driver_calls (snd (Cursor.execute Fixture.healthy Fixture.connected c1 tr1))
     = 1%nat.
Proof.
  intros c run c1 tr1.
  assert (H : run = (Ok tt, c1, tr1)) by reflexivity.
  pose proof (execute_twice_same_as_once Fixture.healthy Fixture.connected
                Fixture.connected c [] c1 tr1 H) as [_ [H2 H3]].
  split; [exact H|]. split; [reflexivity|]. split; [exact H2|].
  apply (H3 eq_refl).
Defined.

Lemma failed_execute_is_retryable_witness :
  let c := Fixture.cursor "insert_one" in
  let run := Cursor.execute Fixture.failing Fixture.connected c [] in
  let c1 := snd (fst run) in
  let tr1 := snd run in
  run = (Raise (ProgrammingError "Operation failed: network timeout"), c1, tr1)
  /\ Cursor._executed c1 = false
  /\ driver_calls (snd (Cursor.execute Fixture.failing Fixture.connected c1 tr1))
     = 2%nat.
Proof.
  intros c run c1 tr1.
  assert (H : run = (Raise (ProgrammingError "Operation failed: network timeout"),
                     c1, tr1)) by reflexivity.
  pose proof (failed_execute_is_retryable Fixture.failing Fixture.connected
                c [] _ c1 tr1 H) as [_ [H2 [_ H4]]].
  destruct (H4 Fixture.connected
              (MkCollection (MkDatabase 0%nat "shop") "items")
              m_insert_one eq_refl eq_refl) as [H5 _].
  split; [exact H|]. split; [exact H2|].
  rewrite H5. reflexivity.
Defined.

Section DispatchTable.
Variable D : Driver.

Lemma app_singleton_neq {A} (l : list A) (x : A) : l ++ [x] <> l.
Proof.
  intros H. apply (f_equal (@length A)) in H.
  rewrite length_app in H. simpl in H. lia.
Qed.

(** C6, as the code has it.  On a pending cursor over a usable
    connection, [execute()] issues the driver call named by the
    operation kind for each of the eleven kinds of the dispatch chain
    (find, find_one, insert_one, insert_many, update_one, update_many,
    delete_one, delete_many, replace_one, aggregate, count_documents),
    returning when that call returns; and it raises the
    unknown-operation error, without any driver call, exactly when the
    kind is not one of these. *)
Theorem execute_dispatch_table conn c tr coll :
  Cursor._executed c = false ->
  Connection.collection conn (Cursor._collection_name c) = Ok coll ->
  (In (Cursor._operation c) dispatch_kinds ->
   exists m,
     method_name m = Cursor._operation c
     /\ Cursor.execute D conn c tr =
          match drv_call D tr (Cursor.call_of c coll m) with
          | Ok r =>
              (Ok tt, Cursor.set_executed (Cursor.set_result c r) true,
               tr ++ [ECall (Cursor.call_of c coll m)])
          | Raise e =>
              (Raise (Cursor.operation_failed (str e)), c,
               tr ++ [ECall (Cursor.call_of c coll m)])
          end)
  /\ (~ In (Cursor._operation c) dispatch_kinds <->
      Cursor.execute D conn c tr =
        (Raise (Cursor.operation_failed
                  (str (Cursor.unknown_operation (Cursor._operation c)))),
         c, tr)).
Proof.
  intros He Hc. split.
  - intros Hin. apply method_of_dispatch_kinds in Hin as [m Hm].
    exists m. split; [apply method_of_some, Hm|].
    apply execute_pending_known; assumption.
  - split.
    + intros Hn. apply method_of_none in Hn.
      unfold Cursor.execute, Cursor.dispatch.
      rewrite He, (collection_ok_not_closed _ _ _ Hc), Hc, Hn. reflexivity.
    + intros E Hin. apply method_of_dispatch_kinds in Hin as [m Hm].
      rewrite (execute_pending_known D conn c tr coll m He Hc Hm) in E.
      destruct (drv_call D tr (Cursor.call_of c coll m));
        inversion E as [[E1 E2]];
        eapply app_singleton_neq; eassumption.
Qed.

End DispatchTable.

(** C6 as stated fails at kind [count].  The kind [count] of the
    specification's list is not in the dispatch chain: with a healthy server and a connected connection, [execute()]
    on a [count] cursor raises the unknown-operation error. *)
Lemma count_kind_is_rejected :
  In "count" spec_kinds
  /\ Cursor.execute Fixture.healthy Fixture.connected (Fixture.cursor "count") []
     = (Raise (ProgrammingError "Operation failed: Unknown operation: count"),
        Fixture.cursor "count", []).
Proof.
  split; [|reflexivity]. unfold spec_kinds. simpl. tauto.
Qed.

Lemma execute_dispatch_table_witness :
  let c := Fixture.cursor "count_documents" in
  Cursor._executed c = false
  /\ Connection.collection Fixture.connected (Cursor._collection_name c)
     = Ok (MkCollection (MkDatabase 0%nat "shop") "items")
  /\ In (Cursor._operation c) dispatch_kinds
  /\ fst (fst (Cursor.execute Fixture.healthy Fixture.connected c [])) = Ok tt
  /\ Cursor.execute Fixture.healthy Fixture.connected (Fixture.cursor "count") []
     = (Raise (ProgrammingError "Operation failed: Unknown operation: count"),
        Fixture.cursor "count", []).
Proof.
  intros c.
  assert (Hin : In (Cursor._operation c) dispatch_kinds)
    by (unfold dispatch_kinds; simpl; tauto).
  assert (Hout : ~ In (Cursor._operation (Fixture.cursor "count")) dispatch_kinds).
  { unfold dispatch_kinds. simpl. intros H.
    repeat (destruct H as [H|H]; [discriminate H|]). exact H. }
  pose proof (execute_dispatch_table Fixture.healthy Fixture.connected c []
                (MkCollection (MkDatabase 0%nat "shop") "items")
                eq_refl eq_refl) as [H1 _].
  destruct (H1 Hin) as [m [Hm Hx]].
  pose proof (execute_dispatch_table Fixture.healthy Fixture.connected
                (Fixture.cursor "count") []
                (MkCollection (MkDatabase 0%nat "shop") "items")
                eq_refl eq_refl) as [_ [H2 _]].
  split; [reflexivity|]. split; [reflexivity|]. split; [exact Hin|].
  split.
  - rewrite Hx. reflexivity.
  - exact (H2 Hout).
Defined.

(** [rowcount] on an executed cursor of a [*_many] kind. *)
Lemma rowcount_many (c : Cursor.t) :
  Cursor._executed c = true ->
  In (Cursor._operation c) ["insert_many"; "update_many"; "delete_many"] ->
  Cursor.rowcount c = Ok (PyInt (Cursor.many_count (Cursor._result c))).
Proof.
  intros He Hop. unfold Cursor.rowcount. rewrite He. simpl in Hop.
  destruct Hop as [<-|[<-|[<-|[]]]]; reflexivity.
Qed.

(** C7. [rowcount] is -1 on a cursor that has not been executed.  After
    execution: for insert_many, update_many and delete_many it is the first
    attribute present on the write result in the order inserted_count,
    modified_count, deleted_count, and 0 when none is; for insert_one,
    update_one, delete_one and replace_one it is 1 if the write result is
    acknowledged (0 if not); for count_documents it is the integer result
    itself. *)
Theorem rowcount_semantics (c : Cursor.t) :
  (Cursor._executed c = false -> Cursor.rowcount c = Ok (PyInt (-1)))
  /\ (Cursor._executed c = true ->
      In (Cursor._operation c) ["insert_many"; "update_many"; "delete_many"] ->
      forall w, Cursor._result c = PyWrite w ->
        (forall n, inserted_count w = Some n ->
                   Cursor.rowcount c = Ok (PyInt n))
        /\ (forall n, inserted_count w = None -> modified_count w = Some n ->
                      Cursor.rowcount c = Ok (PyInt n))
        /\ (forall n, inserted_count w = None -> modified_count w = None ->
                      deleted_count w = Some n ->
                      Cursor.rowcount c = Ok (PyInt n))
        /\ (inserted_count w = None -> modified_count w = None ->
            deleted_count w = None ->
            Cursor.rowcount c = Ok (PyInt 0)))
  /\ (Cursor._executed c = true ->
      In (Cursor._operation c)
         ["insert_one"; "update_one"; "delete_one"; "replace_one"] ->
      forall w, Cursor._result c = PyWrite w ->
        Cursor.rowcount c = Ok (PyInt (if acknowledged w then 1 else 0)))
  /\ (Cursor._executed c = true ->
      Cursor._operation c = "count_documents" ->
      forall n, Cursor._result c = PyInt n ->
        Cursor.rowcount c = Ok (PyInt n)).
Proof.
  split; [|split; [|split]].
  - intros He. unfold Cursor.rowcount. rewrite He. reflexivity.
  - intros He Hop w Hw. rewrite (rowcount_many c He Hop), Hw. simpl.
    split; [|split; [|split]].
    + intros n ->. reflexivity.
    + intros n -> ->. reflexivity.
    + intros n -> -> ->. reflexivity.
    + intros -> -> ->. reflexivity.
  - intros He Hop w Hw. unfold Cursor.rowcount. rewrite He, Hw.
    simpl in Hop.
    destruct Hop as [<-|[<-|[<-|[<-|[]]]]]; reflexivity.
  - intros He Hop n Hn. unfold Cursor.rowcount. rewrite He, Hop, Hn.
    reflexivity.
Qed.

Lemma rowcount_semantics_witness :
  Cursor.rowcount (Fixture.cursor "update_many") = Ok (PyInt (-1))
  /\ Cursor.rowcount
       (snd (fst (Cursor.execute Fixture.healthy Fixture.connected
                    (Fixture.cursor "update_many") []))) = Ok (PyInt 1)
  /\ Cursor.rowcount
       (snd (fst (Cursor.execute Fixture.healthy Fixture.connected
                    (Fixture.cursor "insert_one") []))) = Ok (PyInt 1)
  /\ Cursor.rowcount
       (snd (fst (Cursor.execute Fixture.healthy Fixture.connected
                    (Fixture.cursor "count_documents") []))) = Ok (PyInt 2).
Proof.
  pose (run op := snd (fst (Cursor.execute Fixture.healthy Fixture.connected
                              (Fixture.cursor op) []))).
  split; [|split; [|split]].
  - apply (proj1 (rowcount_semantics (Fixture.cursor "update_many"))).
    reflexivity.
  - destruct (rowcount_semantics (run "update_many")) as [_ [H _]].
    assert (Hin : In (Cursor._operation (run "update_many"))
                     ["insert_many"; "update_many"; "delete_many"])
      by (simpl; tauto).
    destruct (H eq_refl Hin _ eq_refl) as [_ [H2 _]].
    exact (H2 1 eq_refl eq_refl).
  - destruct (rowcount_semantics (run "insert_one")) as [_ [_ [H _]]].
    assert (Hin : In (Cursor._operation (run "insert_one"))
                     ["insert_one"; "update_one"; "delete_one"; "replace_one"])
      by (simpl; tauto).
    exact (H eq_refl Hin _ eq_refl).
  - destruct (rowcount_semantics (run "count_documents")) as [_ [_ [_ H]]].
    exact (H eq_refl eq_refl 2 eq_refl).
Defined.

(** On an executed cursor of any kind other than find and find_one the
    fetch methods never look into the result: [fetchone] hands back the raw
    result object, [fetchmany] and [fetchall] an empty list. *)
Lemma fetch_other_kinds D conn c tr size :
  Cursor._executed c = true ->
  String.eqb (Cursor._operation c) "find" = false ->
  String.eqb (Cursor._operation c) "find_one" = false ->
  Cursor.fetchone D conn c tr = (Ok (Cursor._result c), c, tr)
  /\ Cursor.fetchmany D conn size c tr = (Ok [], c, tr)
  /\ Cursor.fetchall D conn c tr = (Ok [], c, tr).
Proof.
  intros He Hf Hf1.
  unfold Cursor.fetchone, Cursor.fetchmany, Cursor.fetchall.
  rewrite He, Hf, Hf1. repeat split.
Qed.

(** C3, evaluated.  A cursor of kind aggregate on a connection whose
    document factory wraps documents, over a collection holding two
    documents: [fetchone] returns the driver's lazy sequence itself, not
    its first element mapped through the factory, and consumes nothing;
    [fetchall] and [fetchmany(2)] return the empty list.  The same calls
    on a find cursor pull the elements and map them. *)
Theorem aggregate_fetch_skips_sequence :
  let agg := Fixture.wrapping_cursor "aggregate" in
  let fnd := Fixture.wrapping_cursor "find" in
  let D := Fixture.healthy in
  let conn := Fixture.wrapping in
  (fst (fst (Cursor.fetchone D conn agg []))
     = Ok (PyIter [Fixture.d1; Fixture.d2])
   /\ Cursor._result (snd (fst (Cursor.fetchone D conn agg [])))
      = PyIter [Fixture.d1; Fixture.d2]
   /\ fst (fst (Cursor.fetchall D conn agg [])) = Ok []
   /\ fst (fst (Cursor.fetchmany D conn 2 agg [])) = Ok [])
  /\ (fst (fst (Cursor.fetchone D conn fnd []))
        = Ok (PyDocument (PyDict Fixture.d1))
      /\ Cursor._result (snd (fst (Cursor.fetchone D conn fnd [])))
         = PyIter [Fixture.d2]
      /\ fst (fst (Cursor.fetchall D conn fnd []))
         = Ok [PyDocument (PyDict Fixture.d1); PyDocument (PyDict Fixture.d2)]
      /\ fst (fst (Cursor.fetchmany D conn 2 fnd []))
         = Ok [PyDocument (PyDict Fixture.d1); PyDocument (PyDict Fixture.d2)]).
Proof.
  repeat split.
Qed.

(** ** ConnectionPool *)

Section PoolFacts.
Variable K : Constants.
Variable D : Driver.

Import ConnectionPool.

(** *** What each building block leaves alone *)

Lemma create_keeps_queue p :
  _pool (snd (_create_connection K D p)) = _pool p
  /\ _maxconn (snd (_create_connection K D p)) = _maxconn p
  /\ _closed (snd (_create_connection K D p)) = _closed p.
Proof.
  unfold _create_connection.
  destruct (_closed p) eqn:Hc; [cbn; auto|].
  destruct (_maxconn p <=? _created_connections p); [cbn; auto|].
  destruct (Connection.connect K D (Connection.init (_cfg p) None) (history p))
    as [[[[]|e] c] tr]; cbn; auto.
Qed.

(** The counter after [_create_connection]: one more when it returns,
    unchanged when it raises; it returns only below the maximum. *)
Lemma create_counter p :
  match _create_connection K D p with
  | (Ok r, p') =>
      _created_connections p < _maxconn p
      /\ _created_connections p' = _created_connections p + 1
      /\ r = length (heap p)
  | (Raise _, p') => _created_connections p' = _created_connections p
  end.
Proof.
  unfold _create_connection.
  destruct (_closed p); [reflexivity|].
  destruct (Z.leb_spec (_maxconn p) (_created_connections p)); [reflexivity|].
  destruct (Connection.connect K D (Connection.init (_cfg p) None) (history p))
    as [[[[]|e] c] tr]; cbn; auto.
Qed.

Lemma ping_keeps_pool r p :
  _pool (snd (ping D r p)) = _pool p
  /\ _maxconn (snd (ping D r p)) = _maxconn p
  /\ _created_connections (snd (ping D r p)) = _created_connections p
  /\ _closed (snd (ping D r p)) = _closed p
  /\ heap (snd (ping D r p)) = heap p.
Proof.
  unfold ping. destruct (heap p !! r) as [c|]; [|repeat split].
  destruct (Connection.client c) as [h|e]; [|repeat split].
  destruct (drv_ping D (history p) h); repeat split.
Qed.

Lemma conn_close_keeps_pool r p :
  _pool (conn_close r p) = _pool p
  /\ _maxconn (conn_close r p) = _maxconn p
  /\ _created_connections (conn_close r p) = _created_connections p
  /\ _closed (conn_close r p) = _closed p.
Proof.
  unfold conn_close. destruct (heap p !! r) as [c|]; [|repeat split].
  destruct (Connection.close c (history p)); repeat split.
Qed.


(** *** The maximum is fixed, the counter is bounded *)

Lemma perform_keeps_max a p : _maxconn (perform K D a p) = _maxconn p.
Proof.
  destruct a; cbn.
  - apply create_keeps_queue.
  - unfold queue_get. destruct (_pool p); reflexivity.
  - unfold put_nowait. destruct (queue_full p); reflexivity.
  - apply ping_keeps_pool.
  - apply conn_close_keeps_pool.
  - reflexivity.
  - reflexivity.
  - reflexivity.
Qed.

Lemma perform_keeps_bound a p :
  0 <= _maxconn p ->
  _created_connections p <= _maxconn p ->
  _created_connections (perform K D a p) <= _maxconn p.
Proof.
  intros H0 H. destruct a; cbn.
  - pose proof (create_counter p) as Hc.
    destruct (_create_connection K D p) as [[r|e] p']; cbn; lia.
  - unfold queue_get. destruct (_pool p); cbn; lia.
  - unfold put_nowait. destruct (queue_full p); cbn; lia.
  - destruct (ping_keeps_pool r p) as (_ & _ & -> & _). lia.
  - destruct (conn_close_keeps_pool r p) as (_ & _ & -> & _). lia.
  - lia.
  - lia.
  - lia.
Qed.

Lemma perform_all_keeps_bound acts : forall p,
  0 <= _maxconn p ->
  _created_connections p <= _maxconn p ->
  _maxconn (perform_all K D acts p) = _maxconn p
  /\ _created_connections (perform_all K D acts p) <= _maxconn p.
Proof.
  unfold perform_all.
  induction acts as [|a acts IH]; intros p H0 H; cbn; [split; [reflexivity|lia]|].
  pose proof (perform_keeps_max a p) as Hm.
  pose proof (perform_keeps_bound a p H0 H) as Hb.
  destruct (IH (perform K D a p)) as [IH1 IH2]; [lia | lia |].
  split; [congruence | lia].
Qed.

Lemma perform_all_app acts1 acts2 p :
  perform_all K D (acts1 ++ acts2) p
  = perform_all K D acts2 (perform_all K D acts1 p).
Proof. unfold perform_all. apply fold_left_app. Qed.

End PoolFacts.

Section PoolSchedules.
Variable K : Constants.
Variable D : Driver.

Import ConnectionPool.

(** *** Every call of the pool is a schedule of atomic actions *)

Lemma ping_or_replace_schedule r p :
  exists acts, snd (ping_or_replace K D r p) = perform_all K D acts p.
Proof.
  unfold ping_or_replace.
  destruct (ping D r p) as [[[]|e] p1] eqn:E.
  - exists [a_ping r]. cbn. rewrite E. reflexivity.
  - exists [a_ping r; a_create]. cbn. rewrite E. reflexivity.
Qed.

Lemma getconn_schedule p :
  exists acts, snd (getconn K D p) = perform_all K D acts p.
Proof.
  unfold getconn.
  destruct (_closed p); [exists []; reflexivity|].
  destruct (queue_get p) as [[r|e] p1] eqn:E1.
  - destruct (ping_or_replace_schedule r p1) as [acts H].
    exists (a_get :: acts). cbn. rewrite E1. exact H.
  - assert (He : e = Empty /\ p1 = p).
    { unfold queue_get in E1. destruct (_pool p); inversion E1; auto. }
    destruct He as [-> ->].
    destruct (_create_connection K D p) as [[r|e] p2] eqn:E2.
    + exists [a_create]. cbn. rewrite E2. reflexivity.
    + destruct e;
        try (exists [a_create]; cbn; rewrite E2; reflexivity).
      destruct (queue_get p2) as [[r|e] p3] eqn:E3.
      * destruct (ping_or_replace_schedule r p3) as [acts H].
        exists (a_create :: a_get :: acts). cbn. rewrite E2. cbn.
        rewrite E3. exact H.
      * exists [a_create; a_get]. cbn. rewrite E2. cbn. rewrite E3.
        reflexivity.
Qed.

Lemma putconn_schedule r p :
  exists acts, putconn r p = perform_all K D acts p.
Proof.
  unfold putconn.
  destruct (_closed p); [exists [a_conn_close r]; reflexivity|].
  destruct (conn_closed r p); [exists [a_decrement]; reflexivity|].
  destruct (put_nowait r p) as [[] p1] eqn:E.
  - exists [a_put r]. cbn. rewrite E. reflexivity.
  - exists [a_put r; a_conn_close r; a_decrement]. cbn. rewrite E.
    reflexivity.
Qed.

Lemma drain_schedule n : forall p,
  exists acts, drain n p = perform_all K D acts p.
Proof.
  induction n as [|n IH]; intros p; cbn.
  - exists []. reflexivity.
  - destruct (queue_get p) as [[r|e] p1] eqn:E.
    + destruct (IH (conn_close r p1)) as [acts H].
      exists (a_get :: a_conn_close r :: acts). cbn. rewrite E. exact H.
    + exists [a_get]. cbn. rewrite E. reflexivity.
Qed.

Lemma closeall_schedule p :
  exists acts, closeall p = perform_all K D acts p.
Proof.
  unfold closeall.
  destruct (drain_schedule (length (_pool (set_closed p true)))
              (set_closed p true)) as [acts H].
  exists (a_set_closed :: acts ++ [a_reset]).
  change (perform_all K D (a_set_closed :: acts ++ [a_reset]) p)
    with (perform_all K D (acts ++ [a_reset]) (set_closed p true)).
  rewrite perform_all_app, <- H. reflexivity.
Qed.

Lemma run_pool_ops_schedule ops : forall p,
  exists acts, run_pool_ops K D ops p = perform_all K D acts p.
Proof.
  unfold run_pool_ops.
  induction ops as [|o ops IH]; intros p; cbn.
  - exists []. reflexivity.
  - assert (Ho : exists acts, run_pool_op K D o p = perform_all K D acts p).
    { destruct o; cbn.
      - apply getconn_schedule.
      - apply putconn_schedule.
      - apply closeall_schedule. }
    destruct Ho as [acts1 H1].
    destruct (IH (run_pool_op K D o p)) as [acts2 H2].
    exists (acts1 ++ acts2). rewrite perform_all_app, <- H1. exact H2.
Qed.

Lemma create_initial_schedule n : forall p,
  exists acts, snd (create_initial K D n p) = perform_all K D acts p.
Proof.
  induction n as [|n IH]; intros p; cbn.
  - exists []. reflexivity.
  - destruct (_create_connection K D p) as [[r|e] p1] eqn:E.
    + destruct (IH p1) as [acts H].
      exists (a_create :: acts). cbn. rewrite E. exact H.
    + exists [a_create]. cbn. rewrite E. reflexivity.
Qed.

(** C4. For a pool built by the constructor with a maximum size [M]
    (a size: [M >= 0]; the constructor does not check it, and with a
    negative [M] its initial counter 0 is already above [M]), the counter
    of created connections never exceeds [M]:
    neither after any sequence of whole [getconn], [putconn] and
    [closeall] calls, nor after any schedule of the atomic actions that
    concurrent calls are made of (every prefix of a schedule being a
    schedule, this covers every intermediate state). *)
Theorem created_connections_bounded cfg m M h tr p :
  0 <= M ->
  init K D cfg m M h tr = (Ok tt, p) ->
  _maxconn p = M
  /\ (forall ops,
        _created_connections (run_pool_ops K D ops p) <= M)
  /\ (forall acts,
        _created_connections (perform_all K D acts p) <= M).
Proof.
  intros HM Hinit. unfold init in Hinit.
  set (p0 := {| _cfg := cfg; _minconn := m; _maxconn := M; _pool := [];
                _created_connections := 0; _closed := false;
                heap := h; history := tr |}) in *.
  destruct (create_initial_schedule (Z.to_nat m) p0) as [acts0 H0].
  rewrite Hinit in H0. cbn in H0.
  assert (Hp : _maxconn p = M /\ _created_connections p <= M).
  { rewrite H0.
    destruct (perform_all_keeps_bound K D acts0 p0) as [H1 H2]; cbn; auto. }
  destruct Hp as [Hmax Hle].
  assert (Hacts : forall acts,
             _created_connections (perform_all K D acts p) <= M).
  { intros acts.
    destruct (perform_all_keeps_bound K D acts p) as [_ H2]; lia. }
  split; [exact Hmax|]. split; [|exact Hacts].
  intros ops. destruct (run_pool_ops_schedule ops p) as [acts ->].
  apply Hacts.
Qed.

End PoolSchedules.

Section PoolBehaviour.
Variable K : Constants.
Variable D : Driver.

Import ConnectionPool.

(** *** Construction *)

(** The constructor never puts anything into the queue. *)
Lemma create_initial_keeps_queue n : forall p,
  _pool (snd (create_initial K D n p)) = _pool p.
Proof.
  induction n as [|n IH]; intros p; cbn; [reflexivity|].
  destruct (create_keeps_queue K D p) as [Hq _].
  destruct (_create_connection K D p) as [[r|e] p1]; cbn in *.
  - rewrite IH. exact Hq.
  - exact Hq.
Qed.

Lemma init_leaves_queue_empty cfg m M h tr :
  _pool (snd (init K D cfg m M h tr)) = [].
Proof. unfold init. rewrite create_initial_keeps_queue. reflexivity. Qed.

(** With a server that accepts every connection, [n] rounds of the
    constructor's loop below the maximum create [n] live connection
    objects and count them. *)
Lemma create_initial_counts n : forall p,
  (forall tr cfg, drv_connect D tr cfg = Connected) ->
  _closed p = false ->
  _created_connections p + Z.of_nat n <= _maxconn p ->
  exists p' new,
    create_initial K D n p = (Ok tt, p')
    /\ _created_connections p' = _created_connections p + Z.of_nat n
    /\ heap p' = heap p ++ new
    /\ length new = n
    /\ Forall live new.
Proof.
  induction n as [|n IH]; intros p HD Hc Hle.
  - exists p, []. cbn. rewrite app_nil_r, Z.add_0_r.
    repeat split; constructor.
  - cbn [create_initial]. unfold _create_connection. rewrite Hc.
    destruct (Z.leb_spec (_maxconn p) (_created_connections p)); [lia|].
    unfold Connection.connect. cbn. rewrite HD. cbn.
    match goal with
    | |- context [create_initial K D n ?q] =>
        destruct (IH q HD) as (p' & new & E & Hn & Hh & Hl & Hlive);
        [exact Hc | cbn; lia |]
    end.
    cbn in Hn, Hh. rewrite E.
    eexists p', (_ :: new). split; [reflexivity|].
    split; [lia|]. split; [rewrite Hh, <- app_assoc; reflexivity|].
    split; [cbn; lia|].
    constructor; [|exact Hlive]. split; [eexists; reflexivity | reflexivity].
Qed.

(** What the constructor does establish: [m] live connections, counted,
    and an empty idle queue. *)
Lemma init_creates_minimum cfg m M h tr :
  (forall tr cfg, drv_connect D tr cfg = Connected) ->
  0 <= m <= M ->
  exists p new,
    init K D cfg m M h tr = (Ok tt, p)
    /\ _created_connections p = m
    /\ heap p = h ++ new
    /\ Z.of_nat (length new) = m
    /\ Forall live new
    /\ _pool p = [].
Proof.
  intros HD Hm. unfold init.
  match goal with
  | |- context [create_initial K D _ ?q] =>
      destruct (create_initial_counts (Z.to_nat m) q HD)
        as (p & new & E & Hn & Hh & Hl & Hlive);
      [reflexivity | cbn; lia |];
      pose proof (create_initial_keeps_queue (Z.to_nat m) q) as Hq
  end.
  rewrite E in Hq. cbn in Hn, Hh, Hq.
  exists p, new. repeat split; try assumption; lia.
Qed.

(** *** Acquisition with a dead idle connection *)

(** Below the maximum the dead connection is replaced... *)
Lemma getconn_replaces_dead_below_max p r q e :
  _closed p = false ->
  _pool p = r :: q ->
  fst (ping D r (set_pool p q)) = Raise e ->
  _created_connections p < _maxconn p ->
  (forall tr cfg, drv_connect D tr cfg = Connected) ->
  fst (getconn K D p) = Ok (length (heap p))
  /\ _created_connections (snd (getconn K D p)) = _created_connections p + 1.
Proof.
  intros Hc Hq Hping Hlt HD.
  unfold getconn, queue_get, ping_or_replace. rewrite Hc, Hq.
  destruct (ping_keeps_pool D r (set_pool p q)) as (_ & Hm & Hn & Hcl & Hh).
  destruct (ping D r (set_pool p q)) as [[[]|e'] p1]; [discriminate|].
  cbn in Hm, Hn, Hcl, Hh.
  unfold _create_connection. rewrite Hcl, Hm, Hn, Hc.
  destruct (Z.leb_spec (_maxconn p) (_created_connections p)); [lia|].
  unfold Connection.connect. cbn. rewrite HD. cbn.
  rewrite Hh, Hn. split; reflexivity.
Qed.

(** ... but at the maximum the replacement is refused, because the dead
    connection is still counted, and the refusal reaches the caller. *)
Lemma getconn_dead_at_max p r q e :
  _closed p = false ->
  _pool p = r :: q ->
  fst (ping D r (set_pool p q)) = Raise e ->
  _maxconn p <= _created_connections p ->
  fst (getconn K D p)
  = Raise (OperationalError "Maximum number of connections reached")
  /\ _pool (snd (getconn K D p)) = q
  /\ _created_connections (snd (getconn K D p)) = _created_connections p.
Proof.
  intros Hc Hq Hping Hle.
  unfold getconn, queue_get, ping_or_replace. rewrite Hc, Hq.
  destruct (ping_keeps_pool D r (set_pool p q)) as (Hp & Hm & Hn & Hcl & Hh).
  destruct (ping D r (set_pool p q)) as [[[]|e'] p1]; [discriminate|].
  cbn in Hp, Hm, Hn, Hcl, Hh.
  unfold _create_connection. rewrite Hcl, Hm, Hn, Hc.
  destruct (Z.leb_spec (_maxconn p) (_created_connections p)); [|lia].
  cbn. auto.
Qed.

End PoolBehaviour.

Section Release.
Variable K : Constants.
Variable D : Driver.

Import ConnectionPool.


End Release.


Lemma created_connections_bounded_witness :
  let p := snd (ConnectionPool.init Fixture.K Fixture.healthy
                  Fixture.cfg 1 2 [] []) in
  ConnectionPool.init Fixture.K Fixture.healthy Fixture.cfg 1 2 [] []
  = (Ok tt, p)
  /\ ConnectionPool._created_connections
       (run_pool_ops Fixture.K Fixture.healthy
          [acquire; acquire; acquire; release 1%nat; acquire; close_all] p)
     <= 2
  /\ ConnectionPool._created_connections
       (perform_all Fixture.K Fixture.healthy
          [a_create; a_decrement; a_create; a_create; a_reset; a_create] p)
     <= 2.
Proof.
  intros p.
  assert (Hi : ConnectionPool.init Fixture.K Fixture.healthy Fixture.cfg
                 1 2 [] [] = (Ok tt, p)) by reflexivity.
  destruct (created_connections_bounded Fixture.K Fixture.healthy
              Fixture.cfg 1 2 [] [] p ltac:(lia) Hi) as (_ & H1 & H2).
  split; [exact Hi|]. split; [apply H1 | apply H2].
Defined.

(** C1, evaluated.  A pool built with minimum 2 and maximum 3 on a healthy
    server: the constructor returns, two live connection objects exist and
    are counted, but the idle queue is empty, so the first [getconn]
    creates a third connection instead of handing out one of the two.  With
    minimum = maximum = 1 the single connection is counted and out of
    reach: [getconn] finds the queue empty, may not create, and raises
    [Empty]. *)
Theorem initial_connections_not_idle :
  let build m M :=
    ConnectionPool.init Fixture.K Fixture.healthy Fixture.cfg m M [] [] in
  let p := snd (build 2 3) in
  let got := ConnectionPool.getconn Fixture.K Fixture.healthy p in
  (fst (build 2 3) = Ok tt
   /\ ConnectionPool._created_connections p = 2
   /\ length (ConnectionPool.heap p) = 2%nat
   /\ Forall live (ConnectionPool.heap p)
   /\ ConnectionPool._pool p = [])
  /\ (fst got = Ok 2%nat
      /\ length (ConnectionPool.heap (snd got)) = 3%nat
      /\ ConnectionPool._created_connections (snd got) = 3)
  /\ (fst (build 1 1) = Ok tt
      /\ ConnectionPool._created_connections (snd (build 1 1)) = 1
      /\ fst (ConnectionPool.getconn Fixture.K Fixture.healthy
                (snd (build 1 1))) = Raise Empty).
Proof.
  cbv zeta. repeat split; try reflexivity.
  repeat constructor; eexists; reflexivity.
Qed.

(** C2, evaluated.  A pool with maximum 1 on a server whose existing
    handles have gone stale: the first [getconn] creates the pool's one
    connection, [putconn] returns it to the idle queue, and the next
    [getconn] takes it out, sees the ping fail and asks for a replacement,
    which is refused because the dead connection is still counted.  The
    caller gets the capacity error although nothing is checked out, and
    from then on the queue is empty and the counter stays at the maximum:
    a further [getconn] raises [Empty]. *)
Theorem dead_idle_connection_fails_acquire :
  let K := Fixture.K in
  let D := Fixture.stale in
  let p0 := snd (ConnectionPool.init K D Fixture.cfg 0 1 [] []) in
  let first := ConnectionPool.getconn K D p0 in
  let p1 := ConnectionPool.putconn 0%nat (snd first) in
  let second := ConnectionPool.getconn K D p1 in
  (fst first = Ok 0%nat
   /\ ConnectionPool._pool p1 = [0%nat]
   /\ ConnectionPool._created_connections p1 = 1
   /\ ConnectionPool._maxconn p1 = 1
   /\ ConnectionPool._closed p1 = false)
  /\ fst (ConnectionPool.ping D 0%nat p1)
     = Raise (DriverError "connection reset")
  /\ fst second
     = Raise (OperationalError "Maximum number of connections reached")
  /\ (ConnectionPool._pool (snd second) = []
      /\ ConnectionPool._created_connections (snd second) = 1
      /\ ConnectionPool.conn_closed 0%nat (snd second) = false)
  /\ fst (ConnectionPool.getconn K D (snd second)) = Raise Empty.
Proof.
  cbv zeta. repeat split; reflexivity.
Qed.

(** * Further properties of the code *)

(** ** Cursor: fetching *)

Section FetchFacts.
Variable D : Driver.

Lemma set_result_same (c : Cursor.t) r :
  Cursor._result c = r -> Cursor.set_result c r = c.
Proof. intros <-. destruct c; reflexivity. Qed.

Lemma set_result_twice (c : Cursor.t) r r' :
  Cursor.set_result (Cursor.set_result c r) r' = Cursor.set_result c r'.
Proof. reflexivity. Qed.


(** A cursor keeps being an executed find cursor while its sequence is
    consumed. *)
Lemma set_result_keeps c r :
  Cursor._executed (Cursor.set_result c r) = Cursor._executed c
  /\ Cursor._operation (Cursor.set_result c r) = Cursor._operation c
  /\ Cursor._result (Cursor.set_result c r) = r
  /\ mapped (Cursor.set_result c r) = mapped c.
Proof. repeat split. Qed.



End FetchFacts.



Section FetchExecution.
Variable D : Driver.

Lemma fetchone_executed_trace conn c tr :
  Cursor._executed c = true ->
  snd (Cursor.fetchone D conn c tr) = tr
  /\ Cursor._executed (snd (fst (Cursor.fetchone D conn c tr))) = true.
Proof.
  intros He. unfold Cursor.fetchone, Cursor.next_mapped. rewrite He.
  destruct (String.eqb (Cursor._operation c) "find_one").
  { destruct (Cursor._result c); cbn; auto. }
  destruct (String.eqb (Cursor._operation c) "find"); [|cbn; auto].
  destruct (Cursor._result c) as [| | | |[|d l]|]; cbn; auto.
Qed.

Lemma fetchall_executed_trace conn c tr :
  Cursor._executed c = true ->
  snd (Cursor.fetchall D conn c tr) = tr
  /\ Cursor._executed (snd (fst (Cursor.fetchall D conn c tr))) = true.
Proof.
  intros He. pose proof (fetchone_executed_trace conn c tr He) as H1.
  unfold Cursor.fetchall. rewrite He.
  destruct (String.eqb (Cursor._operation c) "find").
  { destruct (Cursor._result c); cbn; auto. }
  destruct (String.eqb (Cursor._operation c) "find_one"); [|cbn; auto].
  destruct (Cursor.fetchone D conn c tr) as [[[v|e] c1] tr1];
    cbn in *; exact H1.
Qed.


(** X4. A fetch on a cursor that has not been executed executes it first.
    If that execution raises, the fetch raises the same exception and the
    cursor stays as it was (still pending); if it returns, the fetch is the
    fetch on the executed cursor, and exactly one driver call was made. *)
Theorem fetch_pending_executes_first conn c tr n :
  Cursor._executed c = false ->
  match Cursor.execute D conn c tr with
  | (Raise e, c1, tr1) =>
      c1 = c
      /\ Cursor.fetchone D conn c tr = (Raise e, c, tr1)
      /\ Cursor.fetchmany D conn n c tr = (Raise e, c, tr1)
      /\ Cursor.fetchall D conn c tr = (Raise e, c, tr1)
  | (Ok _, c1, tr1) =>
      Cursor.fetchone D conn c tr = Cursor.fetchone D conn c1 tr1
      /\ Cursor.fetchmany D conn n c tr = Cursor.fetchmany D conn n c1 tr1
      /\ Cursor.fetchall D conn c tr = Cursor.fetchall D conn c1 tr1
      /\ driver_calls tr1 = S (driver_calls tr)
      /\ driver_calls (snd (Cursor.fetchall D conn c tr))
         = S (driver_calls tr)
  end.
Proof.
  intros He.
  destruct (execute_cases D conn c tr)
    as [[He' _]|[[_ (e & tr' & E)]|[_ (r & k & E)]]]; [congruence| |].
  - rewrite E. unfold Cursor.fetchone, Cursor.fetchmany, Cursor.fetchall.
    rewrite He, E. repeat split.
  - rewrite E.
    set (c1 := Cursor.set_executed (Cursor.set_result c r) true) in *.
    assert (Hc : driver_calls (tr ++ [ECall k]) = S (driver_calls tr))
      by (rewrite driver_calls_app; cbn; lia).
    assert (Hall : Cursor.fetchall D conn c tr
                   = Cursor.fetchall D conn c1 (tr ++ [ECall k])).
    { unfold Cursor.fetchall at 1. rewrite He, E.
      unfold Cursor.fetchall. reflexivity. }
    split; [|split; [|split; [exact Hall|split; [exact Hc|]]]].
    + unfold Cursor.fetchone at 1. rewrite He, E.
      unfold Cursor.fetchone. reflexivity.
    + unfold Cursor.fetchmany at 1. rewrite He, E.
      unfold Cursor.fetchmany. reflexivity.
    + rewrite Hall.
      destruct (fetchall_executed_trace conn c1 (tr ++ [ECall k]))
        as [-> _]; [reflexivity | exact Hc].
Qed.

End FetchExecution.


Lemma fetch_pending_executes_first_witness :
  let c := Fixture.cursor "find" in
  Cursor._executed c = false
  /\ driver_calls (snd (Cursor.fetchall Fixture.healthy Fixture.connected c []))
     = 1%nat
  /\ Cursor.fetchone Fixture.failing Fixture.connected c []
     = (Raise (ProgrammingError "Operation failed: network timeout"), c,
        snd (Cursor.execute Fixture.failing Fixture.connected c [])).
Proof.
  intros c. split; [reflexivity|]. split.
  - pose proof (fetch_pending_executes_first Fixture.healthy
                  Fixture.connected c [] 1 eq_refl) as H.
    cbn in H. apply H.
  - pose proof (fetch_pending_executes_first Fixture.failing
                  Fixture.connected c [] 1 eq_refl) as H.
    cbn in H. apply H.
Defined.

Section FetchSingle.
Variable D : Driver.

(** X5. On an executed find_one cursor the fetch methods consume nothing:
    [fetchone] returns [None] when nothing matched and the mapped document
    otherwise, [fetchmany] (whatever the size, zero and negative sizes
    included) and [fetchall] return that document as a one-element list,
    or the empty list; the cursor and the driver history are unchanged, so
    every repetition gives the same answer. *)
Theorem find_one_fetch_is_repeatable conn c tr n :
  Cursor._executed c = true ->
  Cursor._operation c = "find_one" ->
  let v := match Cursor._result c with
           | PyNone => PyNone
           | doc => Cursor._document_factory c doc
           end in
  Cursor.fetchone D conn c tr = (Ok v, c, tr)
  /\ Cursor.fetchmany D conn n c tr
     = (Ok (Cursor.singleton_unless_none v), c, tr)
  /\ Cursor.fetchall D conn c tr
     = (Ok (Cursor.singleton_unless_none v), c, tr)
  /\ (Cursor._result c = PyNone ->
      Cursor.fetchone D conn c tr = (Ok PyNone, c, tr)
      /\ Cursor.fetchall D conn c tr = (Ok [], c, tr)).
Proof.
  intros He Hop v.
  assert (H1 : Cursor.fetchone D conn c tr = (Ok v, c, tr)).
  { unfold Cursor.fetchone. rewrite He, Hop. cbn. subst v.
    destruct (Cursor._result c); reflexivity. }
  assert (H3 : Cursor.fetchall D conn c tr
               = (Ok (Cursor.singleton_unless_none v), c, tr)).
  { unfold Cursor.fetchall. rewrite He, Hop, H1. reflexivity. }
  split; [exact H1|]. split; [|split; [exact H3|]].
  - unfold Cursor.fetchmany. rewrite He, Hop, H1. reflexivity.
  - intros Hr. rewrite H1, H3. subst v. rewrite Hr. split; reflexivity.
Qed.

(** X6. [next(cursor)] on an executed cursor whose kind is not find never
    ends the iteration unless there is nothing to return: for find_one with
    a match it yields the mapped document, for every other kind the raw
    result, and it leaves the cursor as it was, so the next call yields the
    same value again. *)
Theorem next_repeats_outside_find conn c tr :
  Cursor._executed c = true ->
  String.eqb (Cursor._operation c) "find" = false ->
  let v := if String.eqb (Cursor._operation c) "find_one" then
             match Cursor._result c with
             | PyNone => PyNone
             | doc => Cursor._document_factory c doc
             end
           else Cursor._result c in
  v <> PyNone ->
  CursorIter.next_ D conn c tr = (Ok (CursorIter.Yield v), c, tr).
Proof.
  intros He Hf v Hv. unfold CursorIter.next_.
  assert (H1 : Cursor.fetchone D conn c tr = (Ok v, c, tr)).
  { unfold Cursor.fetchone. rewrite He, Hf. subst v.
    destruct (String.eqb (Cursor._operation c) "find_one");
      [destruct (Cursor._result c)|]; reflexivity. }
  rewrite H1. destruct v; [congruence| | | | |]; reflexivity.
Qed.

End FetchSingle.

Lemma find_one_fetch_is_repeatable_witness :
  let c := snd (fst (Cursor.execute Fixture.healthy Fixture.wrapping
                       (Fixture.wrapping_cursor "find_one") [])) in
  Cursor.fetchmany Fixture.healthy Fixture.wrapping 0 c []
  = (Ok [PyDocument (PyDict Fixture.d1)], c, []).
Proof.
  intros c.
  apply (find_one_fetch_is_repeatable Fixture.healthy Fixture.wrapping c []
           0 eq_refl eq_refl).
Defined.

Lemma next_repeats_outside_find_witness :
  let c := snd (fst (Cursor.execute Fixture.healthy Fixture.connected
                       (Fixture.cursor "count_documents") [])) in
  CursorIter.next_ Fixture.healthy Fixture.connected c []
  = (Ok (CursorIter.Yield (PyInt 2)), c, []).
Proof.
  intros c.
  apply (next_repeats_outside_find Fixture.healthy Fixture.connected c []
           eq_refl eq_refl).
  discriminate.
Defined.

(** ** Cursor: iteration *)

Section IterationFacts.
Variable D : Driver.

Import CursorIter.

Lemma collect_in_find conn l : forall c tr fuel,
  Cursor._result c = PyIter l ->
  (length l < fuel)%nat ->
  collect D fuel conn g_in_find c tr
  = (Ok (map (mapped c) l), g_finished, Cursor.set_result c (PyIter []), tr).
Proof.
  induction l as [|d l IH]; intros c tr fuel Hl Hf;
    (destruct fuel as [|fuel]; [cbn in Hf; lia|]).
  - cbn. unfold find_round. rewrite Hl.
    rewrite (set_result_same c _ Hl). reflexivity.
  - cbn [collect gen_next]. unfold find_round. rewrite Hl.
    rewrite (IH (Cursor.set_result c (PyIter l)) tr fuel eq_refl);
      [reflexivity | cbn in Hf; lia].
Qed.

(** Iteration over an executed cursor. *)
Lemma collect_executed conn c tr fuel :
  Cursor._executed c = true ->
  (2 + length (values_of (fst (fst (Cursor.fetchall D conn c tr)))) <= fuel)%nat ->
  collect D fuel conn g_created c tr
  = (fst (fst (Cursor.fetchall D conn c tr)), g_finished,
     snd (fst (Cursor.fetchall D conn c tr)),
     snd (Cursor.fetchall D conn c tr)).
Proof.
  intros He. destruct fuel as [|fuel]; [cbn; lia|].
  destruct (String.eqb (Cursor._operation c) "find") eqn:Hf.
  - destruct (Cursor._result c) as [| | | |l|] eqn:Hr;
      try (intros _; cbn [collect gen_next];
           unfold Cursor.fetchall, find_round;
           rewrite He, Hf, Hr; reflexivity).
    unfold Cursor.fetchall. rewrite He, Hf, Hr. cbn [fst snd values_of].
    rewrite length_map. intros Hfu.
    destruct l as [|d l].
    + cbn [collect gen_next]. unfold find_round. rewrite He, Hf, Hr.
      rewrite (set_result_same c _ Hr). reflexivity.
    + cbn [collect gen_next]. unfold find_round. rewrite He, Hf, Hr.
      rewrite (collect_in_find conn l (Cursor.set_result c (PyIter l)) tr fuel
                 eq_refl); [reflexivity | cbn in Hfu; lia].
  - destruct (String.eqb (Cursor._operation c) "find_one") eqn:Hf1.
    + intros Hfu. destruct fuel as [|fuel]; [cbn in Hfu; lia|].
      unfold Cursor.fetchall. rewrite He, Hf, Hf1.
      cbn [collect gen_next]. rewrite He, Hf, Hf1.
      destruct (Cursor.fetchone D conn c tr) as [[[v|e] c1] tr1];
        [destruct v|]; reflexivity.
    + intros _. unfold Cursor.fetchall. cbn [collect gen_next].
      rewrite He, Hf, Hf1. reflexivity.
Qed.

(** X7. Running the iterator of a cursor to its end ([list(cursor)], a
    [for] loop) gives what [fetchall()] gives: the same values in the same
    order or the same exception, the same cursor afterwards and the same
    driver history, for every kind of cursor, executed or not.  The loop
    ends: two rounds more than there are values reach the finished
    generator. *)
Theorem iteration_agrees_with_fetchall conn c tr fuel :
  (2 + length (values_of (fst (fst (Cursor.fetchall D conn c tr)))) <= fuel)%nat ->
  collect D fuel conn g_created c tr
  = (fst (fst (Cursor.fetchall D conn c tr)), g_finished,
     snd (fst (Cursor.fetchall D conn c tr)),
     snd (Cursor.fetchall D conn c tr)).
Proof.
  destruct (execute_cases D conn c tr)
    as [[He _]|[[He (e & tr' & E)]|[He (r & k & E)]]].
  - apply collect_executed, He.
  - destruct fuel as [|fuel]; [cbn; lia|]. intros _.
    unfold Cursor.fetchall. cbn [collect gen_next]. rewrite He, E.
    reflexivity.
  - set (c1 := Cursor.set_executed (Cursor.set_result c r) true) in *.
    assert (Hall : Cursor.fetchall D conn c tr
                   = Cursor.fetchall D conn c1 (tr ++ [ECall k])).
    { unfold Cursor.fetchall at 1. rewrite He, E.
      unfold Cursor.fetchall. reflexivity. }
    rewrite Hall. intros Hfu.
    rewrite <- (collect_executed conn c1 (tr ++ [ECall k]) fuel eq_refl Hfu).
    destruct fuel as [|fuel]; [cbn in Hfu; lia|].
    cbn [collect]. unfold gen_next at 1. rewrite He, E.
    unfold gen_next. reflexivity.
Qed.

End IterationFacts.

Lemma iteration_agrees_with_fetchall_witness :
  CursorIter.collect Fixture.healthy 4 Fixture.wrapping CursorIter.g_created
    (Fixture.wrapping_cursor "find") []
  = (Ok [PyDocument (PyDict Fixture.d1); PyDocument (PyDict Fixture.d2)],
     CursorIter.g_finished,
     snd (fst (Cursor.fetchall Fixture.healthy Fixture.wrapping
                 (Fixture.wrapping_cursor "find") [])),
     snd (Cursor.fetchall Fixture.healthy Fixture.wrapping
            (Fixture.wrapping_cursor "find") [])).
Proof.
  apply (iteration_agrees_with_fetchall Fixture.healthy Fixture.wrapping
           (Fixture.wrapping_cursor "find") [] 4).
  cbn. lia.
Defined.

(** ** Connection: life cycle *)

Section ConnectionLifecycle.
Variable K : Constants.
Variable D : Driver.

(** X8. [connect()] asks the driver only while the connection has no
    handle.  With a handle it returns at once, changing nothing; so a
    second [connect()] after a successful one is a no-op, and so is one
    after a failure that came after the handle was stored (a failing
    options step): that call returns normally without retrying.  Without a
    handle after the call, the call raised and left the connection as it
    was, and the next call asks the driver again. *)
Theorem connect_only_without_handle c tr :
  (is_Some (Connection._client c) ->
   Connection.connect K D c tr = (Ok tt, c, tr))
  /\ (let '(out, c1, tr1) := Connection.connect K D c tr in
      match Connection._client c1 with
      | Some _ => Connection.connect K D c1 tr1 = (Ok tt, c1, tr1)
      | None =>
          c1 = c /\ (exists e, out = Raise e)
          /\ (drv_connect D tr1 (Connection._cfg c) = Connected ->
              fst (fst (Connection.connect K D c1 tr1)) = Ok tt
              /\ Connection._client (snd (fst (Connection.connect K D c1 tr1)))
                 = Some (length tr1))
      end
      /\ (out = Ok tt -> is_Some (Connection._client c1))).
Proof.
  assert (Hnoop : forall c tr, is_Some (Connection._client c) ->
                     Connection.connect K D c tr = (Ok tt, c, tr)).
  { intros c' tr' [h Hh]. unfold Connection.connect. rewrite Hh.
    reflexivity. }
  assert (Hretry : forall tr', Connection._client c = None ->
            drv_connect D tr' (Connection._cfg c) = Connected ->
            fst (fst (Connection.connect K D c tr')) = Ok tt
            /\ Connection._client (snd (fst (Connection.connect K D c tr')))
               = Some (length tr')).
  { intros tr' Hc Hd. unfold Connection.connect. rewrite Hc, Hd.
    split; reflexivity. }
  split; [apply Hnoop|].
  destruct (Connection.connect K D c tr) as [[out c1] tr1] eqn:E.
  assert (Hcases :
            (is_Some (Connection._client c1))
            \/ (Connection._client c1 = None /\ c1 = c
                /\ exists e, out = Raise e)).
  { unfold Connection.connect in E.
    destruct (Connection._client c) as [h|] eqn:Hc.
    - inversion E; subst. left. rewrite Hc. eauto.
    - destruct (drv_connect D tr (Connection._cfg c));
        inversion E; subst; cbn; eauto. }
  split.
  - destruct Hcases as [[h Hh]|(Hn & -> & He)].
    + rewrite Hh. apply Hnoop. rewrite Hh. eauto.
    + rewrite Hn. split; [reflexivity|]. split; [exact He|].
      apply Hretry, Hn.
  - intros ->. destruct Hcases as [H|(_ & _ & [e He])];
      [exact H | discriminate].
Qed.

(** X9. [close()] is idempotent and releases the handle once: after it the
    connection has no handle and is marked closed, and closing again
    changes neither the connection nor the driver history.  The driver's
    [close] is called exactly when there was a handle. *)
Theorem close_is_idempotent c tr :
  let '(c1, tr1) := Connection.close c tr in
  Connection._client c1 = None
  /\ Connection._closed c1 = true
  /\ Connection.close c1 tr1 = (c1, tr1)
  /\ tr1 = match Connection._client c with
           | Some h => tr ++ [EClientClose h]
           | None => tr
           end
  /\ (is_Some (Connection._client c) -> Connection._db c1 = None).
Proof.
  unfold Connection.close.
  destruct (Connection._client c) as [h|] eqn:Hc; cbn.
  - repeat split; reflexivity.
  - rewrite Hc. repeat split; try reflexivity.
    intros [h Hh]. discriminate.
Qed.

(** X10. [with conn: body] closes the connection on every path on which the
    body was entered: whatever the body does and however it ends, the
    connection is marked closed and has no handle afterwards, and the
    body's outcome (value or exception) is the outcome of the block.  When
    [connect()] raises on entry, the body does not run and the block's
    outcome is that exception; the connection is not closed by the
    block. *)
Theorem with_connection_closes_on_every_path {A}
    (body : Connection.t -> trace -> res A * Connection.t * trace) c tr :
  match Connection.connect K D c tr with
  | (Raise e, c1, tr1) =>
      ConnectionScope.with_ K D body c tr = (Raise e, c1, tr1)
      /\ Connection._closed c1 = Connection._closed c
  | (Ok _, c1, tr1) =>
      let r := ConnectionScope.with_ K D body c tr in
      fst (fst r) = fst (fst (body c1 tr1))
      /\ Connection._closed (snd (fst r)) = true
      /\ Connection._client (snd (fst r)) = None
      /\ Connection.client (snd (fst r)) = Raise Connection.closed_msg
  end.
Proof.
  unfold ConnectionScope.with_.
  pose proof (connect_keeps_closed K D c tr) as Hk.
  destruct (Connection.connect K D c tr) as [[[[]|e] c1] tr1]; cbn in Hk.
  - destruct (body c1 tr1) as [[out c2] tr2].
    pose proof (close_sets_closed c2 tr2) as H1.
    pose proof (close_drops_client c2 tr2) as H2.
    destruct (Connection.close c2 tr2) as [c3 tr3]. cbn in *.
    repeat split; try assumption.
    unfold Connection.client. rewrite H1. reflexivity.
  - split; [reflexivity | exact Hk].
Qed.

(** X11. A connection that was just constructed refuses [execute],
    [collection], [database] and [client] with the closed-connection error;
    once [connect()] has returned, all four succeed, and [execute] hands
    out a pending cursor (not executed, no result) that carries the
    connection's document factory, or [dict_factory] when it has none. *)
Theorem fresh_connection_needs_connect cfg factory tr c1 tr1 :
  let c0 := Connection.init cfg factory in
  Connection.connect K D c0 tr = (Ok tt, c1, tr1) ->
  (forall coll op args kw,
      Connection_execute c0 coll op args kw = Raise Connection.closed_msg)
  /\ (forall name, Connection.collection c0 name = Raise Connection.closed_msg)
  /\ Connection.database c0 = Raise Connection.closed_msg
  /\ Connection.client c0 = Raise Connection.closed_msg
  /\ (forall coll op args kw,
        exists cur,
          Connection_execute c1 coll op args kw = Ok cur
          /\ Cursor._executed cur = false
          /\ Cursor._result cur = PyNone
          /\ Cursor._operation cur = op
          /\ Cursor._document_factory cur
             = match factory with Some f => f | None => dict_factory end)
  /\ (forall name, exists db,
        Connection.database c1 = Ok db
        /\ Connection.collection c1 name = Ok (MkCollection db name))
  /\ Connection.client c1 = Ok (length tr).
Proof.
  intros c0 H. unfold Connection.connect in H. cbn in H.
  destruct (drv_connect D tr cfg); inversion H; subst; clear H.
  repeat split; try reflexivity.
  - intros coll op args kw. eexists. repeat split.
  - intros name. eexists. split; reflexivity.
Qed.

End ConnectionLifecycle.

Lemma connect_only_without_handle_witness :
  is_Some (Connection._client Fixture.connected)
  /\ Connection.connect Fixture.K Fixture.healthy Fixture.connected
       [EConnect Fixture.cfg]
     = (Ok tt, Fixture.connected, [EConnect Fixture.cfg]).
Proof.
  assert (H : is_Some (Connection._client Fixture.connected))
    by (eexists; reflexivity).
  split; [exact H|].
  apply (proj1 (connect_only_without_handle Fixture.K Fixture.healthy
                  Fixture.connected [EConnect Fixture.cfg]) H).
Defined.

Lemma close_is_idempotent_witness :
  let s := Connection.close Fixture.connected [EConnect Fixture.cfg] in
  is_Some (Connection._client Fixture.connected)
  /\ Connection.close (fst s) (snd s) = s
  /\ snd s = [EConnect Fixture.cfg; EClientClose 0%nat]
  /\ Connection._db (fst s) = None.
Proof.
  intros s.
  assert (H : is_Some (Connection._client Fixture.connected))
    by (eexists; reflexivity).
  pose proof (close_is_idempotent Fixture.connected [EConnect Fixture.cfg])
    as (_ & _ & H3 & H4 & H5).
  split; [exact H|]. split; [exact H3|]. split; [exact H4|]. exact (H5 H).
Defined.

Lemma fresh_connection_needs_connect_witness :
  Connection.connect Fixture.K Fixture.healthy
    (Connection.init Fixture.cfg None) []
  = (Ok tt, Fixture.connected, [EConnect Fixture.cfg])
  /\ Connection.client (Connection.init Fixture.cfg None)
     = Raise Connection.closed_msg
  /\ Connection.client Fixture.connected = Ok 0%nat.
Proof.
  assert (H : Connection.connect Fixture.K Fixture.healthy
                (Connection.init Fixture.cfg None) []
              = (Ok tt, Fixture.connected, [EConnect Fixture.cfg]))
    by reflexivity.
  pose proof (fresh_connection_needs_connect Fixture.K Fixture.healthy
                Fixture.cfg None [] Fixture.connected [EConnect Fixture.cfg] H)
    as (_ & _ & _ & H4 & _ & _ & H7).
  split; [exact H|]. split; [exact H4 | exact H7].
Defined.

(** ** Connection: the parameters handed to the driver *)

Section ClientParamsFacts.
Variable float : Type.
Variable to_ms : float -> Z.
Variable nonzero : float -> bool.
Variable DEFAULT_HOST : string.
Variable DEFAULT_PORT : Z.

Import ClientParams.

Local Abbreviation params :=
  (client_params to_ms nonzero DEFAULT_HOST DEFAULT_PORT).
Local Abbreviation get := ClientParams.lookup.

Lemma lookup_app key d1 d2 :
  get key (d1 ++ d2)
  = match get key d1 with Some v => Some v | None => get key d2 end.
Proof.
  induction d1 as [|[k v] d1 IH]; cbn; [reflexivity|].
  destruct (String.eqb key k); [reflexivity | exact IH].
Qed.

Lemma lookup_opt_entry key k s :
  get key (opt_entry k s)
  = if String.eqb key k then
      match s with
      | Some x => if String.eqb x "" then None else Some (v_str x)
      | None => None
      end
    else None.
Proof.
  unfold opt_entry. destruct s as [x|]; cbn.
  - destruct (String.eqb x ""); cbn; destruct (String.eqb key k); reflexivity.
  - destruct (String.eqb key k); reflexivity.
Qed.

(** X12. A non-empty connection string takes precedence: the parameters
    then carry it as [host] and carry no [port], [username], [password],
    [authSource] or [authMechanism], whatever discrete values the
    connection was given.  Without one, [host] and [port] are always
    present, falling back to the defaults, and a credential is present
    exactly when it is a non-empty string.  The two timeouts are present
    in both cases. *)
Theorem client_params_dsn_precedence (a : args float) :
  (forall s, dsn a = Some s -> s <> "" ->
     get "host" (params a) = Some (v_str s)
     /\ (forall key,
           In key ["port"; "username"; "password"; "authSource";
                   "authMechanism"] ->
           get key (params a) = None))
  /\ (dsn a = None \/ dsn a = Some "" ->
      get "host" (params a) = Some (v_str (or_default (host a) DEFAULT_HOST))
      /\ get "port" (params a)
         = Some (v_int (port_or_default DEFAULT_PORT (port a)))
      /\ get "username" (params a)
         = match username a with
           | Some x => if String.eqb x "" then None else Some (v_str x)
           | None => None
           end
      /\ get "password" (params a)
         = match password a with
           | Some x => if String.eqb x "" then None else Some (v_str x)
           | None => None
           end)
  /\ get "connectTimeoutMS" (params a)
     = Some (v_int (to_ms (connect_timeout a)))
  /\ get "serverSelectionTimeoutMS" (params a)
     = Some (v_int (to_ms (server_selection_timeout a))).
Proof.
  assert (Hd : forall key,
            get key (discrete_params DEFAULT_HOST DEFAULT_PORT a)
            = if String.eqb key "host" then
                Some (v_str (or_default (host a) DEFAULT_HOST))
              else if String.eqb key "port" then
                Some (v_int (port_or_default DEFAULT_PORT (port a)))
              else
                match get key (opt_entry "username" (username a)) with
                | Some v => Some v
                | None =>
                    match get key (opt_entry "password" (password a)) with
                    | Some v => Some v
                    | None =>
                        match get key (opt_entry "authSource" (auth_source a))
                        with
                        | Some v => Some v
                        | None =>
                            get key (opt_entry "authMechanism"
                                       (auth_mechanism a))
                        end
                    end
                end).
  { intros key. unfold discrete_params. cbn [app ClientParams.lookup].
    destruct (String.eqb key "host"); [reflexivity|].
    destruct (String.eqb key "port"); [reflexivity|].
    rewrite !lookup_app. reflexivity. }
  unfold client_params. split; [|split; [|split]].
  - intros s Hs Hne. rewrite Hs.
    destruct (String.eqb_spec s "") as [->|_]; [congruence|].
    split; [reflexivity|].
    intros key Hk. cbn in Hk.
    destruct Hk as [<-|[<-|[<-|[<-|[<-|[]]]]]]; cbn;
      destruct (socket_timeout a) as [t|]; try reflexivity;
      destruct (nonzero t); reflexivity.
  - intros Hdsn.
    assert (E : match dsn a with
                | Some s => if String.eqb s "" then
                              discrete_params DEFAULT_HOST DEFAULT_PORT a
                            else [("host", v_str s)]
                | None => discrete_params DEFAULT_HOST DEFAULT_PORT a
                end = discrete_params DEFAULT_HOST DEFAULT_PORT a).
    { destruct Hdsn as [->| ->]; reflexivity. }
    rewrite E, !lookup_app, !Hd, ?lookup_opt_entry. cbn.
    split; [reflexivity|]. split; [reflexivity|]. split.
    + destruct (username a) as [x|]; [destruct (String.eqb x "")|];
        try reflexivity;
        (destruct (socket_timeout a) as [t|]; [destruct (nonzero t)|];
         reflexivity).
    + destruct (password a) as [y|]; [destruct (String.eqb y "")|];
        try reflexivity;
        (destruct (socket_timeout a) as [t|]; [destruct (nonzero t)|];
         reflexivity).
  - rewrite lookup_app.
    destruct (dsn a) as [s|]; [destruct (String.eqb s "")|];
      rewrite ?Hd, ?lookup_opt_entry; reflexivity.
  - rewrite lookup_app.
    destruct (dsn a) as [s|]; [destruct (String.eqb s "")|];
      rewrite ?Hd, ?lookup_opt_entry; reflexivity.
Qed.

End ClientParamsFacts.

Lemma client_params_dsn_precedence_witness :
  let a := ClientParams.MkArgs Z (Some "mongodb://db.example/app")
             (Some "ignored.example") (Some 1234) (Some "alice")
             (Some "secret") None None 20 30 None in
  let params :=
    ClientParams.client_params (fun t => t * 1000) (fun t => negb (t =? 0))
      "localhost" 27017 a in
  ClientParams.lookup "host" params
  = Some (ClientParams.v_str "mongodb://db.example/app")
  /\ ClientParams.lookup "username" params = None
  /\ ClientParams.lookup "password" params = None
  /\ ClientParams.lookup "port" params = None.
Proof.
  intros a params.
  destruct (client_params_dsn_precedence Z (fun t => t * 1000)
              (fun t => negb (t =? 0)) "localhost" 27017 a) as [H _].
  destruct (H "mongodb://db.example/app" eq_refl ltac:(discriminate))
    as [Hh Hk].
  split; [exact Hh|].
  split; [apply Hk; cbn; tauto|].
  split; apply Hk; cbn; tauto.
Defined.

(** ** ConnectionPool: shutdown *)

Section PoolShutdown.
Variable K : Constants.
Variable D : Driver.

Import ConnectionPool.

Lemma conn_close_heap r p :
  length (heap (conn_close r p)) = length (heap p)
  /\ (forall r', r' <> r -> heap (conn_close r p) !! r' = heap p !! r')
  /\ (forall r', closed_at r' p -> closed_at r' (conn_close r p))
  /\ (is_Some (heap p !! r) -> closed_at r (conn_close r p)).
Proof.
  unfold conn_close. destruct (heap p !! r) as [c|] eqn:Hr.
  - pose proof (close_sets_closed c (history p)) as Hc.
    destruct (Connection.close c (history p)) as [c' tr']. cbn in *.
    split; [apply length_insert|].
    split; [intros r' Hne; apply list_lookup_insert_ne; congruence|].
    assert (Hat : closed_at r (set_world p (<[r:=c']> (heap p)) tr')).
    { exists c'. split; [|exact Hc]. cbn.
      apply list_lookup_insert_eq. eapply lookup_lt_Some, Hr. }
    split; [|intros _; exact Hat].
    intros r' (c0 & H0 & Hcl). destruct (decide (r' = r)) as [->|Hne].
    + exact Hat.
    + exists c0. split; [|exact Hcl]. cbn.
      rewrite list_lookup_insert_ne; [exact H0 | congruence].
  - split; [reflexivity|]. split; [reflexivity|].
    split; [auto|]. intros [c Hc]. discriminate.
Qed.

(** The loop of [closeall] with as many rounds as the queue is long. *)
Lemma drain_all q : forall p,
  _pool p = q ->
  let p' := drain (length q) p in
  _pool p' = []
  /\ _closed p' = _closed p
  /\ _maxconn p' = _maxconn p
  /\ _created_connections p' = _created_connections p
  /\ length (heap p') = length (heap p)
  /\ (forall r, r ∉ q -> heap p' !! r = heap p !! r)
  /\ (forall r, closed_at r p -> closed_at r p')
  /\ (forall r, r ∈ q -> is_Some (heap p !! r) -> closed_at r p').
Proof.
  induction q as [|r0 q IH]; intros p Hq; cbn.
  - repeat split; auto. intros r Hr. inversion Hr.
  - unfold queue_get. rewrite Hq.
    destruct (conn_close_keeps_pool r0 (set_pool p q)) as (H1 & H2 & H3 & H4).
    destruct (conn_close_heap r0 (set_pool p q)) as (L1 & L2 & L3 & L4).
    cbn in H1, H2, H3, H4, L1, L2, L3, L4.
    destruct (IH (conn_close r0 (set_pool p q)) H1)
      as (I1 & I2 & I3 & I4 & I5 & I6 & I7 & I8).
    split; [exact I1|]. split; [congruence|]. split; [congruence|].
    split; [congruence|]. split; [congruence|].
    split; [|split].
    + intros r Hr. apply not_elem_of_cons in Hr as [Hne Hr].
      rewrite (I6 r Hr). apply L2, Hne.
    + intros r Hr. apply I7, L3. exact Hr.
    + intros r Hr Hs. apply elem_of_cons in Hr as [->|Hr].
      * apply I7, L4. exact Hs.
      * apply I8; [exact Hr|].
        destruct (decide (r = r0)) as [->|Hne].
        -- destruct (L4 Hs) as (c & Hc & _). rewrite Hc. eauto.
        -- rewrite (L2 r Hne). exact Hs.
Qed.

(** X13. [closeall()] marks the pool closed, empties the idle queue and
    sets the counter to zero.  Every connection that was idle is closed by
    it; a connection that was not in the queue (one a caller still holds)
    is left exactly as it was. *)
Theorem closeall_drains_and_closes p :
  let p' := closeall p in
  _closed p' = true
  /\ _pool p' = []
  /\ _created_connections p' = 0
  /\ _maxconn p' = _maxconn p
  /\ (forall r, r ∈ _pool p -> is_Some (heap p !! r) -> closed_at r p')
  /\ (forall r, r ∉ _pool p -> heap p' !! r = heap p !! r).
Proof.
  unfold closeall.
  destruct (drain_all (_pool (set_closed p true)) (set_closed p true) eq_refl)
    as (I1 & I2 & I3 & I4 & I5 & I6 & I7 & I8).
  cbn in *. repeat split; try assumption.
Qed.

(** X14. A closed pool hands out nothing and creates nothing: [getconn]
    and [_create_connection] raise "Pool is closed" without touching the
    state or the driver, and [putconn] closes the connection it is given
    instead of queueing it.  This is the state [closeall()] leaves, and a
    second [closeall()] changes nothing. *)
Theorem closed_pool_is_inert p r :
  (_closed p = true ->
     getconn K D p = (Raise (InterfaceError "Pool is closed"), p)
     /\ _create_connection K D p = (Raise (InterfaceError "Pool is closed"), p)
     /\ putconn r p = conn_close r p
     /\ _pool (putconn r p) = _pool p)
  /\ getconn K D (closeall p)
     = (Raise (InterfaceError "Pool is closed"), closeall p)
  /\ closeall (closeall p) = closeall p.
Proof.
  assert (Hc : forall q, _closed q = true ->
            getconn K D q = (Raise (InterfaceError "Pool is closed"), q)).
  { intros q Hq. unfold getconn. rewrite Hq. reflexivity. }
  destruct (drain_all (_pool (set_closed p true)) (set_closed p true) eq_refl)
    as (I1 & I2 & I3 & I4 & I5 & I6 & I7 & I8).
  split; [|split].
  - intros Hp. split; [apply Hc, Hp|].
    unfold _create_connection, putconn. rewrite Hp.
    repeat split. apply conn_close_keeps_pool.
  - apply Hc. unfold closeall. cbn. exact I2.
  - unfold closeall at 1.
    assert (Hq : _pool (closeall p) = []) by (unfold closeall; cbn; exact I1).
    assert (Hcl : _closed (closeall p) = true)
      by (unfold closeall; cbn; exact I2).
    assert (Hn : _created_connections (closeall p) = 0) by reflexivity.
    cbn [set_closed _pool]. rewrite Hq. cbn [length drain].
    destruct (closeall p) as [cfg mn mx q n cl h tr]. cbn in *.
    subst. reflexivity.
Qed.

End PoolShutdown.

Lemma closeall_drains_and_closes_witness :
  let p := ConnectionPool.putconn 0%nat
             (snd (ConnectionPool.getconn Fixture.K Fixture.healthy
                     (snd (ConnectionPool.init Fixture.K Fixture.healthy
                             Fixture.cfg 0 2 [] [])))) in
  ConnectionPool._pool p = [0%nat]
  /\ closed_at 0%nat (ConnectionPool.closeall p)
  /\ ConnectionPool._pool (ConnectionPool.closeall p) = [].
Proof.
  intros p.
  destruct (closeall_drains_and_closes p) as (_ & H2 & _ & _ & H5 & _).
  split; [reflexivity|]. split; [|exact H2].
  apply H5.
  - change (ConnectionPool._pool p) with [0%nat]. apply list_elem_of_here.
  - eexists. reflexivity.
Defined.

Lemma closed_pool_is_inert_witness :
  let p := ConnectionPool.closeall
             (snd (ConnectionPool.init Fixture.K Fixture.healthy
                     Fixture.cfg 1 2 [] [])) in
  ConnectionPool._closed p = true
  /\ ConnectionPool.getconn Fixture.K Fixture.healthy p
     = (Raise (InterfaceError "Pool is closed"), p)
  /\ ConnectionPool._pool (ConnectionPool.putconn 0%nat p) = [].
Proof.
  intros p.
  assert (H : ConnectionPool._closed p = true) by reflexivity.
  destruct (closed_pool_is_inert Fixture.K Fixture.healthy p 0%nat)
    as [H1 _].
  destruct (H1 H) as (Hg & _ & _ & Hq).
  split; [exact H|]. split; [exact Hg | exact Hq].
Defined.

(** ** ConnectionPool: acquisition *)

Section PoolAcquire.
Variable K : Constants.
Variable D : Driver.

Import ConnectionPool.

(** [_create_connection] on an open pool below its maximum, with a server
    that accepts the connection. *)
Lemma create_below_max p :
  _closed p = false ->
  _created_connections p < _maxconn p ->
  drv_connect D (history p) (_cfg p) = Connected ->
  exists c,
    live c
    /\ _create_connection K D p
       = (Ok (length (heap p)),
          set_created
            (set_world p (heap p ++ [c]) (history p ++ [EConnect (_cfg p)]))
            (_created_connections p + 1)).
Proof.
  intros Hc Hlt Hd. unfold _create_connection. rewrite Hc.
  destruct (Z.leb_spec (_maxconn p) (_created_connections p)); [lia|].
  unfold Connection.connect. cbn. rewrite Hd. cbn.
  eexists. split; [|reflexivity]. split; [eexists; reflexivity | reflexivity].
Qed.

(** [getconn] on an open pool with nothing idle. *)
Lemma getconn_empty_queue p :
  _closed p = false ->
  _pool p = [] ->
  getconn K D p
  = match _create_connection K D p with
    | (Raise (OperationalError _), p') => (Raise Empty, p')
    | other => other
    end.
Proof.
  intros Hc Hq. unfold getconn, queue_get. rewrite Hc, Hq.
  destruct (create_keeps_queue K D p) as (Hq' & _ & _). rewrite Hq in Hq'.
  destruct (_create_connection K D p) as [[r|e] p'] eqn:E; [reflexivity|].
  cbn in Hq'. destruct e; try reflexivity. rewrite Hq'. reflexivity.
Qed.

(** X15. The capacity ceiling.  On an open pool with nothing idle and a
    server that accepts connections, successive [getconn()] calls without
    any release each create a new connection, as long as the counter is
    below the maximum: [n] calls return [n] new, distinct connections and
    raise the counter by [n].  Once the counter is at the maximum,
    [getconn()] creates nothing: it raises [Empty] and leaves the pool as
    it was. *)
Theorem getconn_grows_up_to_maximum n : forall p,
  always_connects D ->
  _closed p = false ->
  _pool p = [] ->
  _created_connections p + Z.of_nat n <= _maxconn p ->
  let '(outs, p') := PoolScope.getconn_times K D n p in
  outs = map Ok (seq (length (heap p)) n)
  /\ _created_connections p' = _created_connections p + Z.of_nat n
  /\ length (heap p') = (length (heap p) + n)%nat
  /\ _pool p' = [] /\ _closed p' = false /\ _maxconn p' = _maxconn p
  /\ (_created_connections p' = _maxconn p' ->
      getconn K D p' = (Raise Empty, p')).
Proof.
  induction n as [|n IH]; intros p HD Hc Hq Hle.
  - cbn. rewrite Z.add_0_r, Nat.add_0_r. repeat split; auto.
    intros Hfull. rewrite (getconn_empty_queue p Hc Hq).
    unfold _create_connection. rewrite Hc.
    destruct (Z.leb_spec (_maxconn p) (_created_connections p)); [|lia].
    reflexivity.
  - cbn [PoolScope.getconn_times].
    rewrite (getconn_empty_queue p Hc Hq).
    destruct (create_below_max p Hc ltac:(lia) (HD _ _)) as (c & _ & ->).
    match goal with
    | |- context [PoolScope.getconn_times K D n ?q] =>
        specialize (IH q HD Hc Hq); cbn in IH;
        destruct (PoolScope.getconn_times K D n q) as [outs p']
    end.
    destruct IH as (H1 & H2 & H3 & H4 & H5 & H6 & H7); [lia|].
    rewrite length_app in H1, H3. cbn in H1, H3.
    split; [cbn; rewrite H1, Nat.add_1_r; reflexivity|].
    split; [lia|]. split; [lia|]. auto.
Qed.

End PoolAcquire.

Lemma healthy_always_connects : always_connects Fixture.healthy.
Proof. intros tr cfg. reflexivity. Qed.

Lemma getconn_grows_up_to_maximum_witness :
  let p := snd (ConnectionPool.init Fixture.K Fixture.healthy
                  Fixture.cfg 0 2 [] []) in
  let r := PoolScope.getconn_times Fixture.K Fixture.healthy 2 p in
  fst r = [Ok 0%nat; Ok 1%nat]
  /\ ConnectionPool._created_connections (snd r) = 2
  /\ ConnectionPool.getconn Fixture.K Fixture.healthy (snd r)
     = (Raise Empty, snd r).
Proof.
  intros p r.
  pose proof (getconn_grows_up_to_maximum Fixture.K Fixture.healthy 2 p
                healthy_always_connects eq_refl eq_refl
                ltac:(vm_compute; discriminate)) as H.
  change (PoolScope.getconn_times Fixture.K Fixture.healthy 2 p)
    with (fst r, snd r) in H.
  cbv beta iota in H.
  destruct H as (H1 & H2 & _ & _ & _ & _ & H7).
  split; [exact H1|]. split; [exact H2|].
  apply H7. reflexivity.
Defined.

Section PoolReuse.
Variable K : Constants.
Variable D : Driver.

Import ConnectionPool.

(** [ping] on a live connection that the server answers. *)
Lemma ping_live r p c h :
  heap p !! r = Some c ->
  Connection._closed c = false ->
  Connection._client c = Some h ->
  drv_ping D (history p) h = None ->
  ping D r p = (Ok tt, set_world p (heap p) (history p ++ [EPing h])).
Proof.
  intros Hr Hc Hh Hp. unfold ping, Connection.client.
  rewrite Hr, Hc, Hh, Hp. reflexivity.
Qed.

(** X16. [getconn()] hands out the connection that has been idle longest:
    with a non-empty queue whose oldest connection is open and answers the
    ping, it returns that connection, leaves the others queued in their
    order, and neither creates a connection nor changes the counter; the
    only driver interaction is the ping. *)
Theorem getconn_reuses_oldest_idle p r q c h :
  _closed p = false ->
  _pool p = r :: q ->
  heap p !! r = Some c ->
  Connection._closed c = false ->
  Connection._client c = Some h ->
  drv_ping D (history p) h = None ->
  let '(out, p') := getconn K D p in
  out = Ok r
  /\ _pool p' = q
  /\ _created_connections p' = _created_connections p
  /\ heap p' = heap p
  /\ history p' = history p ++ [EPing h].
Proof.
  intros Hc Hq Hr Hcl Hh Hp.
  unfold getconn, queue_get, ping_or_replace. rewrite Hc, Hq.
  rewrite (ping_live r (set_pool p q) c h Hr Hcl Hh Hp).
  repeat split.
Qed.

(** X17. Release then acquire is a round trip: on an open pool with nothing
    idle, [putconn] of an open connection followed by [getconn()] returns
    that same connection when it answers the ping, and the pool is as
    before except for the ping in the driver history. *)
Theorem putconn_then_getconn_round_trip p r c h :
  _closed p = false ->
  _pool p = [] ->
  heap p !! r = Some c ->
  Connection._closed c = false ->
  Connection._client c = Some h ->
  drv_ping D (history p) h = None ->
  getconn K D (putconn r p)
  = (Ok r, set_world p (heap p) (history p ++ [EPing h])).
Proof.
  intros Hc Hq Hr Hcl Hh Hp.
  assert (Hfull : queue_full p = false).
  { unfold queue_full. rewrite Hq. cbn [length].
    change (Z.of_nat 0) with 0.
    destruct (Z.ltb_spec 0 (_maxconn p)); [|reflexivity].
    destruct (Z.leb_spec (_maxconn p) 0); [lia | reflexivity]. }
  assert (Hput : putconn r p = set_pool p [r]).
  { unfold putconn, conn_closed, put_nowait, Connection.closed.
    rewrite Hc, Hr, Hcl, Hfull, Hq. reflexivity. }
  rewrite Hput.
  unfold getconn, queue_get, ping_or_replace. cbn [_closed _pool set_pool].
  rewrite Hc.
  rewrite (ping_live r (set_pool (set_pool p [r]) []) c h Hr Hcl Hh Hp).
  destruct p; cbn in *. subst. reflexivity.
Qed.

(** X18. Every connection that [getconn()] returns is usable at that
    moment: it is an existing connection object that has a driver handle
    and is not closed, either because it was created by this call or
    because it was taken from the queue and answered the ping. *)
Theorem getconn_returns_live p r p' :
  getconn K D p = (Ok r, p') ->
  live_at r p'.
Proof.
  assert (Hcreate : forall q r1 q1,
            _create_connection K D q = (Ok r1, q1) -> live_at r1 q1).
  { intros q r1 q1 H. unfold _create_connection in H.
    destruct (_closed q); [discriminate|].
    destruct (_maxconn q <=? _created_connections q); [discriminate|].
    unfold Connection.connect in H. cbn in H.
    destruct (drv_connect D (history q) (_cfg q)); cbn in H;
      inversion H; subst.
    eexists. split.
    - cbn. rewrite lookup_app_r, Nat.sub_diag; [reflexivity | lia].
    - split; [eexists; reflexivity | reflexivity]. }
  assert (Hping : forall q r1 q1,
            ping_or_replace K D r1 q = (Ok r, q1) -> live_at r q1).
  { intros q r1 q1 H. unfold ping_or_replace in H.
    destruct (ping D r1 q) as [[[]|e] q2] eqn:E.
    - inversion H; subst. unfold ping in E.
      destruct (heap q !! r) as [c|] eqn:Hr; [|discriminate].
      unfold Connection.client in E.
      destruct (Connection._closed c) eqn:Hc; [discriminate|].
      destruct (Connection._client c) as [h|] eqn:Hh; [|discriminate].
      destruct (drv_ping D (history q) h); inversion E; subst.
      exists c. split; [exact Hr|]. split; [rewrite Hh; eauto | exact Hc].
    - eapply Hcreate, H. }
  intros H. unfold getconn in H.
  destruct (_closed p); [discriminate|].
  destruct (queue_get p) as [[r1|e] p1]; [eapply Hping, H|].
  destruct e; try discriminate.
  destruct (_create_connection K D p1) as [[r2|e] p2] eqn:E.
  - inversion H; subst. eapply Hcreate, E.
  - destruct e; try discriminate.
    destruct (queue_get p2) as [[r3|e3] p3]; [eapply Hping, H | discriminate].
Qed.

End PoolReuse.

Lemma getconn_reuses_oldest_idle_witness :
  let p1 := snd (ConnectionPool.getconn Fixture.K Fixture.healthy
                   (snd (ConnectionPool.init Fixture.K Fixture.healthy
                           Fixture.cfg 0 2 [] []))) in
  let p := ConnectionPool.putconn 0%nat p1 in
  ConnectionPool._pool p = [0%nat]
  /\ fst (ConnectionPool.getconn Fixture.K Fixture.healthy p) = Ok 0%nat
  /\ ConnectionPool._created_connections
       (snd (ConnectionPool.getconn Fixture.K Fixture.healthy p)) = 1.
Proof.
  intros p1 p.
  pose proof (getconn_reuses_oldest_idle Fixture.K Fixture.healthy p 0%nat []
                Fixture.connected 0%nat eq_refl eq_refl eq_refl eq_refl
                eq_refl eq_refl) as H.
  destruct (ConnectionPool.getconn Fixture.K Fixture.healthy p) as [out p'].
  destruct H as (H1 & _ & H3 & _).
  split; [reflexivity|]. split; [exact H1 | exact H3].
Defined.

Lemma putconn_then_getconn_round_trip_witness :
  let p := snd (ConnectionPool.getconn Fixture.K Fixture.healthy
                  (snd (ConnectionPool.init Fixture.K Fixture.healthy
                          Fixture.cfg 0 2 [] []))) in
  ConnectionPool.heap p !! 0%nat = Some Fixture.connected
  /\ fst (ConnectionPool.getconn Fixture.K Fixture.healthy
            (ConnectionPool.putconn 0%nat p)) = Ok 0%nat.
Proof.
  intros p. split; [reflexivity|].
  rewrite (putconn_then_getconn_round_trip Fixture.K Fixture.healthy p 0%nat
             Fixture.connected 0%nat eq_refl eq_refl eq_refl eq_refl eq_refl
             eq_refl).
  reflexivity.
Defined.

Lemma getconn_returns_live_witness :
  let p := snd (ConnectionPool.init Fixture.K Fixture.healthy
                  Fixture.cfg 0 2 [] []) in
  live_at 0%nat (snd (ConnectionPool.getconn Fixture.K Fixture.healthy p)).
Proof.
  intros p.
  apply (getconn_returns_live Fixture.K Fixture.healthy p 0%nat
           (snd (ConnectionPool.getconn Fixture.K Fixture.healthy p))).
  reflexivity.
Defined.

(** ** ConnectionPool: scoped acquisition, double release, construction *)

Section PoolScopes.
Variable K : Constants.
Variable D : Driver.

Import ConnectionPool.

(** After [putconn] the connection is queued or closed. *)
Lemma putconn_idle_or_closed r p :
  is_Some (heap p !! r) ->
  r ∈ _pool (putconn r p) \/ closed_at r (putconn r p).
Proof.
  intros [c Hr]. unfold putconn.
  destruct (conn_close_heap r p) as (_ & _ & _ & Hcl).
  destruct (_closed p).
  { right. apply Hcl. eauto. }
  unfold conn_closed. rewrite Hr.
  destruct (Connection.closed c) eqn:Hc.
  { right. exists c. split; [exact Hr | exact Hc]. }
  unfold put_nowait. destruct (queue_full p).
  - right. destruct (Hcl ltac:(eauto)) as (c' & Hc' & Hcl').
    exists c'. split; [exact Hc' | exact Hcl'].
  - left. cbn. apply elem_of_app. right. apply list_elem_of_here.
Qed.

(** X19. Scoped acquisition releases on every exit path.  If [getconn()]
    raises, the body does not run and the exception is the outcome.
    Otherwise the outcome of the block is the outcome of the body, value or
    exception, and whatever the body did (including closing the connection
    or shutting the pool down) the connection ends up in the idle queue or
    closed, never checked out and open with nobody holding it. *)
Theorem scoped_acquisition_always_releases {A}
    (body : ref -> t -> res A * t) p :
  match getconn K D p with
  | (Raise e, p1) => PoolScope.connection K D body p = (Raise e, p1)
  | (Ok r, p1) =>
      let p' := snd (PoolScope.connection K D body p) in
      fst (PoolScope.connection K D body p) = fst (body r p1)
      /\ (is_Some (heap (snd (body r p1)) !! r) ->
          r ∈ _pool p' \/ closed_at r p')
  end.
Proof.
  unfold PoolScope.connection.
  destruct (getconn K D p) as [[r|e] p1]; [|reflexivity].
  destruct (body r p1) as [out p2]. cbn.
  split; [reflexivity|]. apply putconn_idle_or_closed.
Qed.

(** X20. [putconn] does not notice a second release of the same
    connection: releasing an open connection twice into an empty queue
    that has room for two puts it into the queue twice, and the next two
    [getconn()] calls both return it, so two callers hold the same
    connection. *)
Theorem double_release_hands_out_twice p r c h :
  _closed p = false ->
  _pool p = [] ->
  _maxconn p <> 1 ->
  heap p !! r = Some c ->
  Connection._closed c = false ->
  Connection._client c = Some h ->
  (forall tr, drv_ping D tr h = None) ->
  let p2 := putconn r (putconn r p) in
  _pool p2 = [r; r]
  /\ _created_connections p2 = _created_connections p
  /\ fst (getconn K D p2) = Ok r
  /\ fst (getconn K D (snd (getconn K D p2))) = Ok r.
Proof.
  intros Hc Hq Hm Hr Hcl Hh Hp.
  assert (Hput : forall q, (length q <= 1)%nat ->
            putconn r (set_pool p q) = set_pool p (q ++ [r])).
  { intros q Hl.
    unfold putconn, conn_closed, put_nowait, queue_full, Connection.closed.
    cbn [_closed _pool heap set_pool _maxconn]. rewrite Hc, Hr, Hcl.
    destruct (Z.ltb_spec 0 (_maxconn p)); cbn; [|reflexivity].
    destruct (Z.leb_spec (_maxconn p) (Z.of_nat (length q)));
      [lia | reflexivity]. }
  assert (Hp0 : set_pool p [] = p) by (destruct p; cbn in *; subst; reflexivity).
  pose proof (Hput [] ltac:(cbn; lia)) as H1. rewrite Hp0 in H1.
  cbn [app] in H1.
  intros p2. subst p2.
  rewrite H1, (Hput [r] ltac:(cbn; lia)). cbn [app].
  assert (Hget : forall q tr,
            getconn K D (set_world (set_pool p (r :: q)) (heap p) tr)
            = (Ok r, set_world (set_pool p q) (heap p) (tr ++ [EPing h]))).
  { intros q tr. unfold getconn, queue_get, ping_or_replace.
    cbn [_closed _pool set_pool set_world]. rewrite Hc.
    erewrite ping_live; [reflexivity | exact Hr | exact Hcl | exact Hh |].
    apply Hp. }
  assert (Hw : forall q, set_pool p q
                         = set_world (set_pool p q) (heap p) (history p))
    by (intros q; reflexivity).
  split; [reflexivity|]. split; [reflexivity|].
  rewrite (Hw [r; r]), Hget. split; [reflexivity|].
  cbn [snd]. rewrite Hget. reflexivity.
Qed.

End PoolScopes.

Lemma scoped_acquisition_always_releases_witness :
  let p := snd (ConnectionPool.init Fixture.K Fixture.healthy
                  Fixture.cfg 0 2 [] []) in
  let body (r : ConnectionPool.ref) (q : ConnectionPool.t) :=
    (@Raise unit (DriverError "query failed"), q) in
  let r := PoolScope.connection Fixture.K Fixture.healthy body p in
  fst r = Raise (DriverError "query failed")
  /\ (0%nat ∈ ConnectionPool._pool (snd r) \/ closed_at 0%nat (snd r)).
Proof.
  intros p body r.
  pose proof (scoped_acquisition_always_releases Fixture.K Fixture.healthy
                body p) as H.
  change (ConnectionPool.getconn Fixture.K Fixture.healthy p)
    with (@Ok ConnectionPool.ref 0%nat,
          snd (ConnectionPool.getconn Fixture.K Fixture.healthy p)) in H.
  cbv beta iota zeta in H. destruct H as [H1 H2].
  split; [exact H1|]. apply H2. eexists. reflexivity.
Defined.

Lemma double_release_hands_out_twice_witness :
  let p := snd (ConnectionPool.getconn Fixture.K Fixture.healthy
                  (snd (ConnectionPool.init Fixture.K Fixture.healthy
                          Fixture.cfg 0 2 [] []))) in
  let p2 := ConnectionPool.putconn 0%nat (ConnectionPool.putconn 0%nat p) in
  ConnectionPool._pool p2 = [0%nat; 0%nat]
  /\ fst (ConnectionPool.getconn Fixture.K Fixture.healthy p2) = Ok 0%nat
  /\ fst (ConnectionPool.getconn Fixture.K Fixture.healthy
            (snd (ConnectionPool.getconn Fixture.K Fixture.healthy p2)))
     = Ok 0%nat.
Proof.
  intros p p2.
  destruct (double_release_hands_out_twice Fixture.K Fixture.healthy p 0%nat
              Fixture.connected 0%nat eq_refl eq_refl ltac:(discriminate)
              eq_refl eq_refl eq_refl (fun _ => eq_refl))
    as (H1 & _ & H3 & H4).
  split; [exact H1|]. split; [exact H3 | exact H4].
Defined.

Section PoolConstruction.
Variable K : Constants.
Variable D : Driver.

Import ConnectionPool.

Lemma create_initial_keeps_flags n : forall p,
  _closed (snd (create_initial K D n p)) = _closed p
  /\ _maxconn (snd (create_initial K D n p)) = _maxconn p.
Proof.
  induction n as [|n IH]; intros p; cbn; [split; reflexivity|].
  destruct (create_keeps_queue K D p) as (_ & Hm & Hc).
  destruct (_create_connection K D p) as [[r|e] p1]; cbn in *.
  - destruct (IH p1) as [I1 I2]. split; congruence.
  - split; assumption.
Qed.

Lemma create_initial_add a b : forall p,
  create_initial K D (a + b) p
  = match create_initial K D a p with
    | (Ok _, p') => create_initial K D b p'
    | raised => raised
    end.
Proof.
  induction a as [|a IH]; intros p; cbn; [reflexivity|].
  destruct (_create_connection K D p) as [[r|e] p1]; [apply IH | reflexivity].
Qed.

(** X21. Constructing a pool with a minimum above its maximum fails, but
    not before it has opened connections: with a server that accepts them
    and [0 <= M < m], the constructor raises "Maximum number of connections
    reached" after creating [M] connections.  No pool object is returned,
    and the [M] connections are left open: none of them is closed by the
    constructor. *)
Theorem init_above_maximum_leaves_connections cfg m M h tr :
  always_connects D ->
  0 <= M < m ->
  exists p new,
    init K D cfg m M h tr
    = (Raise (OperationalError "Maximum number of connections reached"), p)
    /\ _created_connections p = M
    /\ heap p = h ++ new
    /\ Z.of_nat (length new) = M
    /\ Forall live new.
Proof.
  intros HD Hm. unfold init.
  set (p0 := {| _cfg := cfg; _minconn := m; _maxconn := M; _pool := [];
                _created_connections := 0; _closed := false;
                heap := h; history := tr |}).
  replace (Z.to_nat m) with (Z.to_nat M + S (Z.to_nat (m - M - 1)))%nat by lia.
  rewrite create_initial_add.
  destruct (create_initial_counts K D (Z.to_nat M) p0 HD eq_refl)
    as (p1 & new & E & Hn & Hh & Hl & Hlive); [cbn; lia|].
  destruct (create_initial_keeps_flags (Z.to_nat M) p0) as [Hc Hmax].
  rewrite E in Hc, Hmax |- *. cbn in Hc, Hmax, Hn, Hh.
  cbn [create_initial]. unfold _create_connection. rewrite Hc.
  destruct (Z.leb_spec (_maxconn p1) (_created_connections p1)); [|lia].
  exists p1, new. repeat split; try assumption; lia.
Qed.

End PoolConstruction.

Lemma init_above_maximum_leaves_connections_witness :
  let r := ConnectionPool.init Fixture.K Fixture.healthy Fixture.cfg 3 1 [] [] in
  fst r = Raise (OperationalError "Maximum number of connections reached")
  /\ ConnectionPool._created_connections (snd r) = 1
  /\ Forall live (ConnectionPool.heap (snd r)).
Proof.
  intros r.
  destruct (init_above_maximum_leaves_connections Fixture.K Fixture.healthy
              Fixture.cfg 3 1 [] [] healthy_always_connects ltac:(lia))
    as (p & new & E & Hn & Hh & _ & Hlive).
  subst r. rewrite E. cbn [fst snd]. rewrite Hh.
  split; [reflexivity|]. split; [exact Hn | exact Hlive].
Defined.

(** ** QueryBuilder *)

Section BuilderFacts.

Import QueryBuilder.

Lemma dict_get_set {V} (f g : string) (v : V) d :
  dict_get f (dict_set g v d)
  = if String.eqb f g then Some v else dict_get f d.
Proof.
  induction d as [|[k w] d IH]; cbn.
  - destruct (String.eqb f g); reflexivity.
  - destruct (String.eqb_spec g k) as [->|Hgk]; cbn.
    + destruct (String.eqb f k); reflexivity.
    + rewrite IH. destruct (String.eqb_spec f k) as [->|Hfk]; [|reflexivity].
      destruct (String.eqb_spec k g) as [->|_]; [congruence | reflexivity].
Qed.

Lemma dict_get_set_all {V} (f : string) (v : V) fields : forall d,
  dict_get f (fold_left (fun d g => dict_set g v d) fields d)
  = if str_in f fields then Some v else dict_get f d.
Proof.
  unfold str_in.
  induction fields as [|g fields IH]; intros d; cbn; [reflexivity|].
  rewrite IH, dict_get_set.
  destruct (String.eqb f g); cbn; [|reflexivity].
  destruct (existsb (String.eqb f) fields); reflexivity.
Qed.

Lemma dict_set_Forall {V} (P : string * V -> Prop) k v d :
  P (k, v) -> Forall P d -> Forall P (dict_set k v d).
Proof.
  intros Hp Hd. induction Hd as [|[k' v'] d Hx Hd IH]; cbn.
  - repeat constructor. exact Hp.
  - destruct (String.eqb k k'); constructor; assumption.
Qed.

Lemma dict_set_all_Forall {V} (P : string * V -> Prop) v fields : forall d,
  (forall k, P (k, v)) -> Forall P d ->
  Forall P (fold_left (fun d g => dict_set g v d) fields d).
Proof.
  induction fields as [|g fields IH]; intros d Hp Hd; cbn; [exact Hd|].
  apply IH; [exact Hp|]. apply dict_set_Forall; [apply Hp | exact Hd].
Qed.

Lemma apply_well_formed k q : well_formed q -> well_formed (apply k q).
Proof.
  intros [Hs Hp].
  assert (Hsort : forall fs kw, well_formed (sort fs kw q)).
  { intros fs kw. split; [|exact Hp]. cbn.
    repeat (apply Forall_app; split); [exact Hs | |].
    - apply Forall_forall. intros e He.
      apply list_elem_of_In, in_map_iff in He as (f & <- & _).
      unfold sort_field. destruct f as [|a f]; [auto|].
      destruct (Ascii.ascii_dec a "-") as [->|Hne]; [auto|].
      destruct a as [[] [] [] [] [] [] [] []]; cbn; auto.
    - apply Forall_forall. intros e He.
      apply list_elem_of_In, in_map_iff in He as (f & <- & _).
      unfold sort_keyword. cbn. destruct (0 <? snd f); auto. }
  destruct k; cbn; try (split; assumption); try apply Hsort.
  - destruct fields as [|f fields]; [split; assumption|].
    split; [exact Hs|]. intros p [= <-].
    apply dict_set_all_Forall; [auto|].
    constructor; [cbn; auto | constructor].
  - destruct fields as [|f fields]; [split; assumption|].
    split; [exact Hs|]. intros p [= <-].
    apply dict_set_all_Forall; [auto|].
    apply dict_set_Forall; [auto|].
    destruct (_projection q) as [p0|]; [apply Hp; reflexivity | constructor].
Qed.

(** X22. Whatever chain of builder calls is made on a new builder, every
    sort criterion it holds has direction 1 or -1 (a keyword direction is
    normalised by its sign, a positional field by its leading minus sign),
    every projection entry is 0 or 1, and the collection is the one the
    builder was created for. *)
Theorem chain_keeps_builder_well_formed ks collection :
  let q := chain ks (init collection) in
  Forall (fun e => snd e = 1 \/ snd e = -1) (_sort q)
  /\ (forall p, _projection q = Some p ->
                Forall (fun e => snd e = 0 \/ snd e = 1) p)
  /\ _collection q = collection.
Proof.
  assert (H : forall ks q, well_formed q ->
            well_formed (chain ks q)
            /\ _collection (chain ks q) = _collection q).
  { clear ks. unfold chain.
    induction ks as [|k ks IH]; intros q Hq; cbn; [auto|].
    destruct (IH (apply k q) (apply_well_formed k q Hq)) as [I1 I2].
    split; [exact I1|]. rewrite I2.
    destruct k; cbn; try reflexivity.
    - destruct fields; reflexivity.
    - destruct fields; reflexivity. }
  destruct (H ks (init collection)) as [[H1 H2] H3].
  { split; [constructor | discriminate]. }
  cbn. auto.
Qed.

(** X23. [select] with at least one field replaces the projection: the
    fields named are included (1) and nothing else is in it, whatever was
    selected or excluded before.  [exclude] with at least one field adds
    to the projection: the fields named are excluded (0) and every other
    entry stays.  Called without fields, both leave the builder as it
    was. *)
Theorem select_replaces_exclude_adds fields q :
  fields <> [] ->
  (exists p, _projection (select fields q) = Some p
             /\ forall f, dict_get f p
                          = if str_in f fields then Some 1 else None)
  /\ (exists p, _projection (exclude fields q) = Some p
                /\ forall f, dict_get f p
                             = if str_in f fields then Some 0
                               else match _projection q with
                                    | Some p0 => dict_get f p0
                                    | None => None
                                    end)
  /\ select [] q = q /\ exclude [] q = q.
Proof.
  intros Hne. destruct fields as [|g fields]; [congruence|].
  split; [|split; [|split; reflexivity]].
  - eexists. split; [reflexivity|]. intros f.
    rewrite (dict_get_set_all f 1 (g :: fields) []). reflexivity.
  - eexists. split; [reflexivity|]. intros f.
    rewrite (dict_get_set_all f 0 (g :: fields)).
    destruct (_projection q); reflexivity.
Qed.

End BuilderFacts.

Lemma chain_keeps_builder_well_formed_witness :
  let q := QueryBuilder.chain
             [QueryBuilder.c_select ["name"; "qty"];
              QueryBuilder.c_exclude ["_id"];
              QueryBuilder.c_sort ["-qty"; "name"] [("price", -5); ("age", 3)]]
             (QueryBuilder.init "items") in
  QueryBuilder._sort q = [("qty", -1); ("name", 1); ("price", -1); ("age", 1)]
  /\ QueryBuilder._projection q = Some [("name", 1); ("qty", 1); ("_id", 0)]
  /\ Forall (fun e => snd e = 0 \/ snd e = 1)
       [("name", 1); ("qty", 1); ("_id", 0)].
Proof.
  intros q.
  destruct (chain_keeps_builder_well_formed
              [QueryBuilder.c_select ["name"; "qty"];
               QueryBuilder.c_exclude ["_id"];
               QueryBuilder.c_sort ["-qty"; "name"] [("price", -5); ("age", 3)]]
              "items") as (_ & H2 & _).
  split; [reflexivity|]. split; [reflexivity|].
  apply H2. reflexivity.
Defined.

Lemma select_replaces_exclude_adds_witness :
  let q := QueryBuilder.exclude ["secret"] (QueryBuilder.init "items") in
  exists p,
    QueryBuilder._projection (QueryBuilder.select ["name"] q) = Some p
    /\ QueryBuilder.dict_get "secret" p = None
    /\ QueryBuilder.dict_get "name" p = Some 1.
Proof.
  intros q.
  destruct (select_replaces_exclude_adds ["name"] q ltac:(discriminate))
    as ((p & Hp & Hget) & _).
  exists p. split; [exact Hp|]. split; apply Hget.
Defined.

Section BuilderExecution.
Variable D : Driver.

Import QueryBuilder.

Lemma run_filter_op_known op m conn q tr coll :
  Cursor.method_of op = Some m ->
  Connection.collection conn (_collection q) = Ok coll ->
  run_filter_op D op conn q tr
  = match drv_call D tr (MkCall coll m [_filter q] []) with
    | Ok r =>
        (Ok (Cursor.set_executed
               (Cursor.set_result
                  (Cursor.init conn (_collection q) op [_filter q] []) r)
               true),
         tr ++ [ECall (MkCall coll m [_filter q] [])])
    | Raise e =>
        (Raise (Cursor.operation_failed (str e)),
         tr ++ [ECall (MkCall coll m [_filter q] [])])
    end.
Proof.
  intros Hm Hc. unfold run_filter_op, Connection_execute.
  assert (Hdb : Connection._closed conn = false
                /\ exists db, Connection._db conn = Some db).
  { unfold Connection.collection in Hc.
    destruct (Connection._closed conn); [discriminate|].
    destruct (Connection._db conn); [eauto | discriminate]. }
  destruct Hdb as [Hcl [db Hdb]]. rewrite Hcl, Hdb. cbn [build p_filter].
  rewrite (execute_pending_known D conn
             (Cursor.init conn (_collection q) op [_filter q] [])
             tr coll m eq_refl Hc Hm).
  unfold Cursor.call_of. cbn [Cursor._args Cursor._kwargs Cursor.init].
  destruct (drv_call D tr (MkCall coll m [_filter q] [])); reflexivity.
Qed.

(** X24. [count()], [delete_one()] and [delete_many()] of the builder each
    make exactly one driver call, the method of that name on the builder's
    collection with the accumulated filter as its only argument, and hand
    back what the driver returned: the integer for [count()], the raw write
    result for the deletes.  A driver exception comes back wrapped as
    "Operation failed: ...".  On a connection that is closed or not
    connected they raise the closed-connection error without any driver
    call. *)
Theorem builder_operations_call_driver_once conn q tr :
  match Connection.collection conn (_collection q) with
  | Ok coll =>
      let run m :=
        (match drv_call D tr (MkCall coll m [_filter q] []) with
         | Ok r => Ok r
         | Raise e => Raise (Cursor.operation_failed (str e))
         end,
         tr ++ [ECall (MkCall coll m [_filter q] [])]) in
      count D conn q tr = run m_count_documents
      /\ delete_one D conn q tr = run m_delete_one
      /\ delete_many D conn q tr = run m_delete_many
  | Raise _ =>
      count D conn q tr = (Raise Connection.closed_msg, tr)
      /\ delete_one D conn q tr = (Raise Connection.closed_msg, tr)
      /\ delete_many D conn q tr = (Raise Connection.closed_msg, tr)
  end.
Proof.
  destruct (Connection.collection conn (_collection q)) as [coll|e] eqn:Hc.
  - unfold count, delete_one, delete_many.
    rewrite (run_filter_op_known "count_documents" m_count_documents
               conn q tr coll eq_refl Hc),
      (run_filter_op_known "delete_one" m_delete_one conn q tr coll
         eq_refl Hc),
      (run_filter_op_known "delete_many" m_delete_many conn q tr coll
         eq_refl Hc).
    repeat split;
      match goal with
      | |- context [drv_call D tr ?k] => destruct (drv_call D tr k)
      end; reflexivity.
  - assert (He : forall op, run_filter_op D op conn q tr
                            = (Raise Connection.closed_msg, tr)).
    { intros op. unfold run_filter_op, Connection_execute.
      unfold Connection.collection in Hc.
      destruct (Connection._closed conn); [reflexivity|].
      destruct (Connection._db conn); [discriminate | reflexivity]. }
    unfold count, delete_one, delete_many. rewrite !He. repeat split.
Qed.

End BuilderExecution.

Lemma builder_operations_call_driver_once_witness :
  let q := QueryBuilder.filter [("qty", 5)] (QueryBuilder.init "items") in
  QueryBuilder.count Fixture.healthy Fixture.connected q []
  = (Ok (PyInt 2),
     [ECall (MkCall (MkCollection (MkDatabase 0%nat "shop") "items")
               m_count_documents [[("qty", 5)]] [])])
  /\ fst (QueryBuilder.count Fixture.healthy
            (fst (Connection.close Fixture.connected [])) q [])
     = Raise Connection.closed_msg.
Proof.
  intros q. split.
  - pose proof (builder_operations_call_driver_once Fixture.healthy
                  Fixture.connected q []) as H.
    cbv beta iota zeta in H. apply H.
  - pose proof (builder_operations_call_driver_once Fixture.healthy
                  (fst (Connection.close Fixture.connected [])) q []) as H.
    cbv beta iota zeta in H. destruct H as [H _]. rewrite H. reflexivity.
Defined.

(** ** Transaction *)

Section TransactionFacts.
Variable S : Transaction.SessionDriver.

Import Transaction.

(** X25. A transaction block whose entry succeeded ends its transaction
    exactly once and always ends its session: after the body, [__exit__]
    calls commit when the body returned and abort when it raised, then
    [end_session], whatever the commit or abort did.  When neither of the
    two calls raises, the block's outcome is the body's (its value, or its
    exception passed on) and the transaction object holds no session. *)
Theorem transaction_block_brackets {A} (body : slog -> res A * slog)
    conn log tx1 log1 :
  enter S conn init log = (None, tx1, log1) ->
  exists h s,
    Connection.client conn = Ok h
    /\ _session tx1 = Some s /\ _started tx1 = true
    /\ log1 = log ++ [s_start_session h; s_start_transaction s]
    /\ let out := fst (body log1) in
       let log2 := snd (body log1) in
       let ending := if is_ok out then s_commit s else s_abort s in
       let '(r, tx3, log3) := with_ S body conn log in
       log3 = log2 ++ [ending; s_end s]
       /\ (S log2 ending = None -> S (log2 ++ [ending]) (s_end s) = None ->
           r = match out with
               | Ok a => Returned a
               | Raise e => Raised (Passed e)
               end
           /\ _session tx3 = None /\ _started tx3 = false).
Proof.
  intros He. unfold with_. rewrite He. unfold enter in He.
  destruct (Connection.client conn) as [h|e]; [|discriminate].
  destruct (S log (s_start_session h)); [discriminate|].
  destruct (S (log ++ [s_start_session h]) (s_start_transaction (length log)));
    [discriminate|].
  inversion He; subst; clear He.
  exists h, (length log). split; [reflexivity|].
  split; [reflexivity|]. split; [reflexivity|].
  split; [rewrite <- app_assoc; reflexivity|].
  destruct (body ((log ++ [s_start_session h])
                  ++ [s_start_transaction (length log)])) as [out log2].
  cbn [fst snd]. unfold exit_. cbn [_session].
  assert (Hev : (if negb (is_ok out) then s_abort (length log)
                 else s_commit (length log))
                = (if is_ok out then s_commit (length log)
                   else s_abort (length log)))
    by (destruct (is_ok out); reflexivity).
  rewrite Hev.
  set (ending := if is_ok out then s_commit (length log)
                 else s_abort (length log)).
  destruct (S (log2 ++ [ending]) (s_end (length log))) as [e2|] eqn:E2.
  - split; [rewrite <- app_assoc; reflexivity|]. intros _ Hn. discriminate.
  - destruct (S log2 ending) as [e1|] eqn:E1.
    + split; [rewrite <- app_assoc; reflexivity|]. intros Hn. discriminate.
    + split; [rewrite <- app_assoc; reflexivity|]. intros _ _.
      repeat split.
Qed.

(** X26. A transaction block whose entry fails never runs its body and
    never calls [__exit__]: on a closed or unconnected connection it raises
    "Failed to start transaction: Connection is closed" without any driver
    call; and when the driver refuses [start_transaction], the session that
    [start_session] had just opened is not ended. *)
Theorem transaction_entry_failure {A} (body : slog -> res A * slog) conn log :
  (forall e, Connection.client conn = Raise e ->
     with_ S body conn log = (Raised (start_failed (str e)), init, log))
  /\ (forall h e,
        Connection.client conn = Ok h ->
        S log (s_start_session h) = None ->
        S (log ++ [s_start_session h]) (s_start_transaction (length log))
        = Some e ->
        with_ S body conn log
        = (Raised (start_failed e),
           {| _session := Some (length log); _started := false |},
           log ++ [s_start_session h; s_start_transaction (length log)])).
Proof.
  split.
  - intros e He. unfold with_, enter. rewrite He. reflexivity.
  - intros h e Hh H1 H2. unfold with_, enter. rewrite Hh, H1, H2.
    rewrite <- app_assoc. reflexivity.
Qed.

End TransactionFacts.

Lemma transaction_block_brackets_witness :
  let body (l : Transaction.slog) := (@Raise unit (DriverError "write failed"), l) in
  Transaction.with_ Transaction.reliable body Fixture.connected []
  = (Transaction.Raised (Transaction.Passed (DriverError "write failed")),
     Transaction.init,
     [Transaction.s_start_session 0%nat; Transaction.s_start_transaction 0%nat;
      Transaction.s_abort 0%nat; Transaction.s_end 0%nat]).
Proof.
  intros body.
  destruct (transaction_block_brackets Transaction.reliable body
              Fixture.connected []
              {| Transaction._session := Some 0%nat;
                 Transaction._started := true |}
              [Transaction.s_start_session 0%nat;
               Transaction.s_start_transaction 0%nat] eq_refl)
    as (h & s & Hh & Hs & _ & _ & H).
  injection Hs as <-.
  cbv beta iota zeta in H.
  destruct (Transaction.with_ Transaction.reliable body Fixture.connected [])
    as [[r tx3] log3].
  destruct H as [Hl Hr]. destruct (Hr eq_refl eq_refl) as (-> & H1 & H2).
  rewrite Hl. destruct tx3 as [se st]. cbn in H1, H2. subst. reflexivity.
Defined.

Lemma transaction_entry_failure_witness :
  let body (l : Transaction.slog) := (Ok tt, l) in
  let closed := fst (Connection.close Fixture.connected []) in
  Connection.client closed = Raise Connection.closed_msg
  /\ Transaction.with_ Transaction.reliable body closed []
     = (Transaction.Raised
          (Transaction.DatabaseError
             "Failed to start transaction: Connection is closed"),
        Transaction.init, []).
Proof.
  intros body closed. split; [reflexivity|].
  apply (proj1 (transaction_entry_failure Transaction.reliable body closed [])
           Connection.closed_msg eq_refl).
Defined.

(** ** Type registry *)

Lemma upper_char_idempotent a :
  TypeRegistry.upper_char (TypeRegistry.upper_char a)
  = TypeRegistry.upper_char a.
Proof. destruct a as [[] [] [] [] [] [] [] []]; reflexivity. Qed.

Lemma upper_idempotent s : TypeRegistry.upper (TypeRegistry.upper s)
                           = TypeRegistry.upper s.
Proof.
  induction s as [|a s IH]; cbn; [reflexivity|].
  rewrite upper_char_idempotent, IH. reflexivity.
Qed.

Section RegistryFacts.
Variable V : Type.
Variable T : Type.
Context `{EqDecision T}.
Variable issubclass : T -> T -> bool.
Variable type_of : V -> T.

Import TypeRegistry.

Local Abbreviation registry := (TypeRegistry.t V T).
Implicit Types (f g : V -> V).

(** X27. Converters are found whatever the case of the type name: after
    [register_converter(n, f)], a lookup under any name that differs from
    [n] only in the case of its letters gives [f], and [convert] applies
    it; names that differ otherwise are not affected; and [convert] under
    a name without converter returns the value unchanged. *)
Theorem converter_lookup_ignores_case (n n' : string) (f : V -> res V)
    (r : registry) (v : V) :
  (upper n' = upper n ->
     get_converter n' (register_converter n f r) = Some f
     /\ convert n' v (register_converter n f r) = f v)
  /\ (upper n' <> upper n ->
      get_converter n' (register_converter n f r) = get_converter n' r)
  /\ get_converter (upper n) (register_converter n f r) = Some f
  /\ (get_converter n' r = None -> convert n' v r = Ok v).
Proof.
  unfold convert, get_converter, register_converter. cbn.
  split; [|split; [|split]].
  - intros ->. rewrite lookup_insert_eq. split; reflexivity.
  - intros Hne. apply lookup_insert_ne. congruence.
  - rewrite upper_idempotent. apply lookup_insert_eq.
  - intros ->. reflexivity.
Qed.

Lemma exact_adapters_set ty ty' f (d : list (T * (V -> V))) :
  exact ty' (adapters_set ty f d)
  = if decide (ty' = ty) then Some f else exact ty' d.
Proof.
  induction d as [|[t0 f0] d IH]; cbn.
  - destruct (decide (ty' = ty)); reflexivity.
  - destruct (decide (ty = t0)) as [->|Hne]; cbn.
    + destruct (decide (ty' = t0)); reflexivity.
    + rewrite IH. destruct (decide (ty' = t0)) as [->|Hne'];
        [|reflexivity].
      destruct (decide (t0 = ty)); [congruence | reflexivity].
Qed.

(** X28. An adapter registered for a class is the one used for values of
    exactly that class, whatever adapters were registered before for its
    superclasses, and a later registration for the same class replaces it;
    registrations for other classes keep their exact matches.  [adapt]
    passes [None] through and leaves a value unchanged when neither its
    class nor a superclass has an adapter. *)
Theorem adapter_exact_match_first ty f g (r : registry) :
  get_adapter issubclass ty (register_adapter ty f r) = Some f
  /\ get_adapter issubclass ty (register_adapter ty g (register_adapter ty f r))
     = Some g
  /\ (forall ty', ty' <> ty ->
        exact ty' (_adapters (register_adapter ty f r))
        = exact ty' (_adapters r))
  /\ (forall v, type_of v = ty ->
        adapt issubclass type_of (Some v) (register_adapter ty f r)
        = Some (f v))
  /\ adapt issubclass type_of None r = None
  /\ (forall v, get_adapter issubclass (type_of v) r = None ->
        adapt issubclass type_of (Some v) r = Some v).
Proof.
  assert (H1 : forall h (r0 : registry),
            get_adapter issubclass ty (register_adapter ty h r0) = Some h).
  { intros h r0. unfold get_adapter, register_adapter. cbn.
    rewrite exact_adapters_set. destruct (decide (ty = ty)); [|congruence].
    reflexivity. }
  split; [apply H1|]. split; [apply H1|]. split; [|split; [|split]].
  - intros ty' Hne. cbn. rewrite exact_adapters_set.
    destruct (decide (ty' = ty)); [congruence | reflexivity].
  - intros v <-. unfold adapt. rewrite H1. reflexivity.
  - reflexivity.
  - intros v Hv. unfold adapt. rewrite Hv. reflexivity.
Qed.

End RegistryFacts.

Lemma converter_lookup_ignores_case_witness :
  let r := TypeRegistry.register_converter "ObjectId" (fun v : Z => Ok (v + 1))
             (@TypeRegistry.Mk Z bool [] ∅) in
  TypeRegistry.upper "objectid" = TypeRegistry.upper "ObjectId"
  /\ TypeRegistry.convert "objectid" 41 r = Ok 42
  /\ TypeRegistry.convert "uuid" 41 r = Ok 41.
Proof.
  intros r.
  pose proof (converter_lookup_ignores_case Z bool "ObjectId" "objectid"
                (fun v : Z => Ok (v + 1)) (@TypeRegistry.Mk Z bool [] ∅) 41)
    as (H1 & _).
  pose proof (converter_lookup_ignores_case Z bool "ObjectId" "uuid"
                (fun v : Z => Ok (v + 1)) r 41) as (_ & _ & _ & H4).
  split; [reflexivity|]. split.
  - exact (proj2 (H1 eq_refl)).
  - apply H4. reflexivity.
Defined.

Lemma adapter_exact_match_first_witness :
  let r := TypeRegistry.register_adapter true (fun v : Z => v * 2)
             (TypeRegistry.register_adapter false (fun v : Z => v + 100)
                (@TypeRegistry.Mk Z bool [] ∅)) in
  TypeRegistry.adapt (fun _ _ => true) (fun v : Z => 0 <? v) (Some 21) r
  = Some 42.
Proof.
  intros r.
  destruct (adapter_exact_match_first Z bool (fun _ _ => true)
              (fun v : Z => 0 <? v) true (fun v : Z => v * 2)
              (fun v : Z => v)
              (TypeRegistry.register_adapter false (fun v : Z => v + 100)
                 (@TypeRegistry.Mk Z bool [] ∅)))
    as (_ & _ & _ & H4 & _).
  exact (H4 21 eq_refl).
Defined.

(** ** The application wrapper *)

Section AppFacts.
Variable K : Constants.
Variable D : Driver.

Import MongoApp.

Lemma connects_app tr tr' : connects (tr ++ tr') = (connects tr + connects tr')%nat.
Proof.
  induction tr as [|e tr IH]; cbn; [reflexivity|].
  destruct e; cbn; rewrite IH; reflexivity.
Qed.

Lemma client_with_connection app c tr :
  _connection app = Some c ->
  client K D app tr = (Connection.client c, app, tr).
Proof. intros H. unfold client, connection. rewrite H. reflexivity. Qed.

Lemma client_times_with_connection n : forall app c tr,
  _connection app = Some c ->
  client_times K D n app tr = (repeat (Connection.client c) n, app, tr).
Proof.
  induction n as [|n IH]; intros app c tr H; cbn; [reflexivity|].
  rewrite (client_with_connection app c tr H), (IH app c tr H). reflexivity.
Qed.

(** X29. The application opens its connection on first use and only then:
    with a server that accepts the connection, any number of reads of the
    [client] property on a new application return the same handle, and the
    driver history shows a single connect, made by the first read. *)
Theorem app_connects_once cfg tr n :
  drv_connect D tr cfg = Connected ->
  let '(outs, app', tr') := client_times K D (S n) (init cfg) tr in
  outs = repeat (Ok (length tr)) (S n)
  /\ tr' = tr ++ [EConnect cfg]
  /\ connects tr' = S (connects tr)
  /\ exists c, _connection app' = Some c /\ live c.
Proof.
  intros Hd. cbn [client_times]. unfold client at 1, connection, connect.
  cbn [_connection init args]. unfold Connection.connect. cbn. rewrite Hd.
  cbn.
  erewrite client_times_with_connection; [|reflexivity].
  cbn. split; [reflexivity|]. split; [reflexivity|].
  split; [rewrite connects_app; cbn; lia|].
  eexists. split; [reflexivity|].
  split; [eexists; reflexivity | reflexivity].
Qed.

(** X30. [close()] of the application closes and forgets its connection,
    so the next use opens a new one: if the server accepts it, the
    [client] property succeeds again with a new handle and the application
    holds a live connection.  If the server refuses, the read raises and
    the application still holds no connection, so a later read tries
    again. *)
Theorem app_reopens_after_close app c tr :
  _connection app = Some c ->
  let '(app1, tr1) := close app tr in
  _connection app1 = None
  /\ tr1 = snd (Connection.close c tr)
  /\ (drv_connect D tr1 (args app) = Connected ->
      let '(out, app2, tr2) := client K D app1 tr1 in
      out = Ok (length tr1)
      /\ tr2 = tr1 ++ [EConnect (args app)]
      /\ exists c2, _connection app2 = Some c2 /\ live c2)
  /\ (forall e, drv_connect D tr1 (args app) = ClientFails e ->
      let '(out, app2, tr2) := client K D app1 tr1 in
      out = Raise (InterfaceError ("Failed to connect to MongoDB: " ++ e)%string)
      /\ _connection app2 = None).
Proof.
  intros Hc. unfold close. rewrite Hc.
  destruct (Connection.close c tr) as [c' tr1]. cbn [snd].
  split; [reflexivity|]. split; [reflexivity|]. split.
  - intros Hd. unfold client, connection, connect. cbn [_connection args].
    unfold Connection.connect. cbn. rewrite Hd. cbn.
    split; [reflexivity|]. split; [reflexivity|].
    eexists. split; [reflexivity|].
    split; [eexists; reflexivity | reflexivity].
  - intros e Hd. unfold client, connection, connect. cbn [_connection args].
    unfold Connection.connect. cbn. rewrite Hd. cbn.
    split; reflexivity.
Qed.

End AppFacts.

Lemma app_connects_once_witness :
  let r := MongoApp.client_times Fixture.K Fixture.healthy 3
             (MongoApp.init Fixture.cfg) [] in
  fst (fst r) = [Ok 0%nat; Ok 0%nat; Ok 0%nat]
  /\ connects (snd r) = 1%nat.
Proof.
  intros r.
  pose proof (app_connects_once Fixture.K Fixture.healthy Fixture.cfg [] 2
                eq_refl) as H.
  change (MongoApp.client_times Fixture.K Fixture.healthy 3
            (MongoApp.init Fixture.cfg) [])
    with (fst (fst r), snd (fst r), snd r) in H.
  cbv beta iota in H. destruct H as (H1 & _ & H3 & _).
  split; [exact H1 | exact H3].
Defined.

Lemma app_reopens_after_close_witness :
  let app := snd (fst (MongoApp.client Fixture.K Fixture.healthy
                         (MongoApp.init Fixture.cfg) [])) in
  let s := MongoApp.close app [EConnect Fixture.cfg] in
  MongoApp._connection app = Some Fixture.connected
  /\ fst (fst (MongoApp.client Fixture.K Fixture.healthy (fst s) (snd s)))
     = Ok 2%nat.
Proof.
  intros app s.
  assert (Hc : MongoApp._connection app = Some Fixture.connected)
    by reflexivity.
  pose proof (app_reopens_after_close Fixture.K Fixture.healthy app
                Fixture.connected [EConnect Fixture.cfg] Hc) as H.
  change (MongoApp.close app [EConnect Fixture.cfg]) with (fst s, snd s) in H.
  cbv beta iota in H. destruct H as (_ & _ & H3 & _).
  specialize (H3 eq_refl).
  change (MongoApp.client Fixture.K Fixture.healthy (fst s) (snd s))
    with (fst (fst (MongoApp.client Fixture.K Fixture.healthy (fst s) (snd s))),
          snd (fst (MongoApp.client Fixture.K Fixture.healthy (fst s) (snd s))),
          snd (MongoApp.client Fixture.K Fixture.healthy (fst s) (snd s)))
    in H3.
  cbv beta iota in H3. destruct H3 as (H31 & _).
  split; [exact Hc | exact H31].
Defined.
